(** * Article tracker: ledger, streak engine, progress bar, webhook
      delivery, feed client and scheduler, embedded from the Python
      sources under [bot/], with the progress figures of
      [dashboard/app.py]. *)

From Stdlib Require Import ZArith Lia List Bool Ascii String.
From Stdlib Require Import Floats.SpecFloat.
From stdpp Require Import gmap strings list fin_maps pretty.

Open Scope Z_scope.

(** ** Calendar dates, as [datetime.date] has them *)

Module Calendar.

Record date := mkDate { year : Z; month : Z; day : Z }.

#[global] Instance date_eq_dec : EqDecision date.
Proof. solve_decision. Defined.

#[global] Instance date_countable : Countable date.
Proof.
  refine (inj_countable' (fun d => (year d, month d, day d))
                         (fun t => mkDate t.1.1 t.1.2 t.2) _).
  intros []; reflexivity.
Defined.

(** [datetime.now(tz)]: the local calendar date and the second of that day. *)
Record datetime := mkDatetime { dt_date : date; dt_second : Z }.

Definition is_leap (y : Z) : bool :=
  (y mod 4 =? 0) && (negb (y mod 100 =? 0) || (y mod 400 =? 0)).

Definition days_before_year (y : Z) : Z :=
  let p := y - 1 in p * 365 + p / 4 - p / 100 + p / 400.

Definition DAYS_BEFORE_MONTH : list Z :=
  [0; 0; 31; 59; 90; 120; 151; 181; 212; 243; 273; 304; 334].

Definition days_before_month (y m : Z) : Z :=
  nth (Z.to_nat m) DAYS_BEFORE_MONTH 0
  + (if (2 <? m) && is_leap y then 1 else 0).

(** [date.toordinal()] *)
Definition toordinal (d : date) : Z :=
  days_before_year (year d) + days_before_month (year d) (month d) + day d.

(** [(a - b).days] *)
Definition days_between (a b : date) : Z := toordinal a - toordinal b.

(** [now.replace(day=1).date()] *)
Definition first_of_month (now : datetime) : date :=
  mkDate (year (dt_date now)) (month (dt_date now)) 1.

(** [_days_in_month(year, month)] *)
Definition days_in_month (y m : Z) : Z :=
  if (m =? 2) && is_leap y then 29
  else nth (Z.to_nat m) [0; 31; 28; 31; 30; 31; 30; 31; 31; 30; 31; 30; 31] 0.

(** What the [date] constructor accepts. *)
Definition valid_date (d : date) : Prop :=
  1 <= year d <= 9999 /\ 1 <= month d <= 12
  /\ 1 <= day d <= days_in_month (year d) (month d).

(** [a < b] on dates: by year, then month, then day. *)
Definition date_ltb (a b : date) : bool :=
  (year a <? year b)
  || ((year a =? year b)
      && ((month a <? month b)
          || ((month a =? month b) && (day a <? day b)))).

(** The SQL comparison [date >= bound] on DATE values. *)
Definition date_geb (d bound : date) : bool :=
  (year bound <? year d)
  || ((year bound =? year d)
      && ((month bound <? month d)
          || ((month bound =? month d) && (day bound <=? day d)))).

End Calendar.

Export Calendar.

(** ** Exceptions and results of Python calls

    [RequestException] stands for the class and its subclasses (connection
    errors, timeouts, [HTTPError], the [JSONDecodeError] of
    [response.json()]); [NumericValueOutOfRange] is psycopg2's error for a
    value a column cannot hold. *)

Inductive pyexn :=
| TypeError | OverflowError | ZeroDivisionError | XMLSyntaxError | RequestException
| ValueError | AttributeError | NumericValueOutOfRange.

Inductive result (A : Type) :=
| Ok (a : A)
| Raise (e : pyexn).
Arguments Ok {A} a.
Arguments Raise {A} e.

#[global] Instance result_ret : MRet result := fun A a => Ok a.
#[global] Instance result_bind : MBind result := fun A B k r =>
  match r with
  | Ok a => k a
  | Raise e => Raise e
  end.

(** ** db.py: the three tables and the queries on them

    Money is kept in cents, as the NUMERIC(10,2) columns hold it.
    Connection failures are outside the model.  Of the column ranges, that
    of [current_streak] is modelled, with the error [update_streak] then
    raises; those of the article and daily rows are not. *)

Module Db.

Record article_row := mkArticle {
  a_url : string;
  a_title : string;
  a_published_at : option datetime;
  a_detected_at : datetime;
  a_earning : Z
}.

Record daily_row := mkDaily { article_count : Z; earned : Z }.

Record streak_row := mkStreak {
  current_streak : Z;
  last_publish_date : option date
}.

Record database := mkDb {
  articles : list article_row;          (* in insertion (id) order *)
  daily_stats : gmap date daily_row;    (* date is the primary key *)
  streak_info : option streak_row       (* the row with id = 1, if any *)
}.

(** The state [init_db] leaves on a fresh store. *)
Definition init_db : database :=
  mkDb [] ∅ (Some (mkStreak 0 None)).

(** [SELECT 1 FROM articles WHERE url = %s] *)
Definition is_known_url (url : string) (db : database) : bool :=
  existsb (fun r => String.eqb (a_url r) url) (articles db).

(** [INSERT INTO articles ... ON CONFLICT (url) DO NOTHING] *)
Definition insert_or_ignore (r : article_row) (rows : list article_row)
  : list article_row :=
  if existsb (fun r' => String.eqb (a_url r') (a_url r)) rows
  then rows else rows ++ [r].

(** [INSERT INTO daily_stats ... ON CONFLICT (date) DO UPDATE SET ...] *)
Definition upsert_daily (today : date) (earning : Z)
    (stats : gmap date daily_row) : gmap date daily_row :=
  match stats !! today with
  | None => <[today := mkDaily 1 earning]> stats
  | Some row =>
      <[today := mkDaily (article_count row + 1) (earned row + earning)]> stats
  end.

(** [insert_article]: both statements run, one after the other, in one
    transaction; the function returns [None]. *)
Definition insert_article (url title : string)
    (published_at : option datetime) (earning : Z) (now : datetime)
    (db : database) : unit * database :=
  let today := dt_date now in
  let arts := insert_or_ignore
                (mkArticle url title published_at now earning)
                (articles db) in
  let stats := upsert_daily today earning (daily_stats db) in
  (tt, mkDb arts stats (streak_info db)).

Definition get_today_count (now : datetime) (db : database) : Z :=
  match daily_stats db !! dt_date now with
  | Some row => article_count row
  | None => 0
  end.

Definition get_today_earned (now : datetime) (db : database) : Z :=
  match daily_stats db !! dt_date now with
  | Some row => earned row
  | None => 0
  end.

(** [SELECT COALESCE(SUM(col), 0) FROM daily_stats WHERE date >= %s] *)
Definition sum_daily_since (col : daily_row -> Z) (bound : date)
    (stats : gmap date daily_row) : Z :=
  map_fold (fun d row acc => if date_geb d bound then col row + acc else acc)
           0 stats.

Definition get_monthly_count (now : datetime) (db : database) : Z :=
  sum_daily_since article_count (first_of_month now) (daily_stats db).

Definition get_monthly_earned (now : datetime) (db : database) : Z :=
  sum_daily_since earned (first_of_month now) (daily_stats db).

Definition get_total_earned (db : database) : Z :=
  fold_right (fun r acc => a_earning r + acc) 0 (articles db).

Definition get_total_articles (db : database) : Z :=
  Z.of_nat (length (articles db)).

Definition get_streak (db : database) : Z * option date :=
  match streak_info db with
  | Some row => (current_streak row, last_publish_date row)
  | None => (0, None)
  end.

(** [current_streak] is an [INTEGER] column: PostgreSQL refuses a value
    outside the 32-bit range. *)
Definition fits_integer (n : Z) : bool := (- 2 ^ 31 <=? n) && (n <? 2 ^ 31).

(** [UPDATE streak_info SET ... WHERE id = 1]: touches the row only
    when it is there; a streak the column cannot hold makes the statement
    fail with [NumericValueOutOfRange], and nothing is committed. *)
Definition update_streak (streak : Z) (d : date) (db : database)
  : result unit * database :=
  if fits_integer streak then
    (Ok tt, mkDb (articles db) (daily_stats db)
              (match streak_info db with
               | Some _ => Some (mkStreak streak (Some d))
               | None => None
               end))
  else (Raise NumericValueOutOfRange, db).

End Db.

(** ** streak.py *)

Module Streak.

Definition update_streak (now : datetime) (db : Db.database)
  : result Z * Db.database :=
  let today := dt_date now in
  let '(current_streak, last_publish) := Db.get_streak db in
  let new_streak :=
    match last_publish with
    | None => 1
    | Some last =>
        let delta := days_between today last in
        if delta =? 0 then (if 0 <? current_streak then current_streak else 1)
        else if delta =? 1 then current_streak + 1
        else 1
    end in
  match Db.update_streak new_streak today db with
  | (Ok _, db') => (Ok new_streak, db')
  | (Raise x, db') => (Raise x, db')
  end.

End Streak.

(** ** Python floats: IEEE-754 binary64, round to nearest, ties to even

    Every finite binary64 value is an integer multiple of 2^-1074; a float
    [v] is held as the integer [v * 2^1074].  A magnitude of [OVERFLOW] or
    more stands for an infinity. *)

Module Binary64.

Definition float := Z.

Definition SCALE : Z := 2 ^ 1074.
Definition OVERFLOW : Z := 2 ^ 2098.

(** Nearest integer to [n / d] for [0 <= n], [0 < d]. *)
Definition round_half_even (n d : Z) : Z :=
  let q := n / d in
  let r := n mod d in
  if 2 * r <? d then q
  else if d <? 2 * r then q + 1
  else if Z.even q then q else q + 1.

(** Exponent of the last place of [n / d] units: 53 significant bits,
    and no finer than one unit (the subnormal range). *)
Definition ulp_exp (n d : Z) : Z := Z.max (Z.log2 (n / d) - 52) 0.

Definition round_pos (n d : Z) : float :=
  let e := ulp_exp n d in
  round_half_even n (d * 2 ^ e) * 2 ^ e.

(** The binary64 value nearest to the rational [n / d] units, [0 < d]. *)
Definition round_units (n d : Z) : float :=
  if n <? 0 then - round_pos (- n) d else round_pos n d.

Definition is_finite (x : float) : bool := Z.abs x <? OVERFLOW.

(** [float(n)] for a Python int. *)
Definition float_of_int (n : Z) : result float :=
  let x := round_units (n * SCALE) 1 in
  if is_finite x then Ok x else Raise OverflowError.

(** [a / b] on Python ints: the correctly rounded quotient. *)
Definition true_divide (a b : Z) : result float :=
  if b =? 0 then Raise ZeroDivisionError
  else
    let x := if b <? 0 then round_units (- a * SCALE) (- b)
             else round_units (a * SCALE) b in
    if is_finite x then Ok x else Raise OverflowError.

(** [x * y] on floats. *)
Definition fmul (x y : float) : float := round_units (x * y) SCALE.

(** [min(x, y)]: the first argument unless the second is smaller. *)
Definition fmin (x y : float) : float := if y <? x then y else x.

(** [int(x)]: truncation toward zero. *)
Definition int_of_float (x : float) : result Z :=
  if is_finite x then Ok (Z.quot x SCALE) else Raise OverflowError.

Definition ONE : float := SCALE.

End Binary64.

(** ** progress.py *)

Module Progress.
Import Binary64.

Definition FULL : string := "█".
Definition EMPTY : string := "░".

(** [s * n] on a str: the empty string for [n <= 0]. *)
Definition str_mul (s : string) (n : Z) : string :=
  Z.iter n (String.append s) "".

Definition make_progress_bar (current target length : Z) : result string :=
  if target <=? 0 then Ok (str_mul EMPTY length +:+ " 0%")
  else
    q ← true_divide current target;
    let ratio := fmin q ONE in
    len ← float_of_int length;
    filled ← int_of_float (fmul ratio len);
    let empty := length - filled in
    hundred ← float_of_int 100;
    percentage ← int_of_float (fmul ratio hundred);
    Ok (str_mul FULL filled +:+ str_mul EMPTY empty
        +:+ " " +:+ pretty percentage +:+ "%").

(** [max(0, target - current)] *)
Definition calculate_daily_remaining (current target : Z) : Z :=
  Z.max 0 (target - current).

End Progress.

(** ** The world the bot runs in

    Everything the program reads from outside (the clock, the answers of
    the feed server and of the webhook, the XML parser's verdict, the
    shutdown signal) comes from an environment [env], indexed by how many
    times it was asked so far; everything the program changes lives in a
    [world].  The environment also holds the interpreter's case tables for
    text beyond ASCII. *)

Module Runtime.

Record clock_reading := mkReading { local_now : datetime; epoch : Z }.

(** An [<url>] element, by what [findtext] gives for each path. *)
Record url_element := mkUrlEl {
  el_loc : option string;
  el_title : option string;
  el_publication_date : option string;
  el_keywords : option string
}.

Inductive get_outcome :=
| GetRaises                                   (* requests.get raises *)
| GetResponse (status : Z) (content : string).

(** The values a JSON document can hold under a key, as far as
    [time.sleep] and an f-string tell them apart.  A float comes with the
    text Python prints for it; a magnitude of [Binary64.OVERFLOW] or more
    is an infinity. *)
Inductive pyvalue :=
| PyInt (n : Z)
| PyBool (b : bool)
| PyFloat (x : Binary64.float) (repr : string)
| PyNaN
| PyOther (str : string).          (* None, a str, a list, a dict *)

(** What [response.json()] gives: an exception, or the document; of an
    object only the member ["retry_after"] is looked at. *)
Inductive json_value :=
| JsonObject (retry_after : option pyvalue)
| JsonOther.                       (* a list, a string, a number, null *)

Inductive json_outcome :=
| JsonRaises (x : pyexn)
| JsonValue (v : json_value).

Inductive post_outcome :=
| PostRaises                                  (* requests.post raises *)
| PostResponse (status : Z) (json : json_outcome).

Record payload := mkPayload {
  content : string;
  components : option string     (* the link button's url, if any *)
}.

Inductive loglevel := DEBUG | INFO | WARNING | ERROR.

Inductive event :=
| EvGet (url : string)
| EvPost (url : string) (body : payload)
| EvSleep (seconds : Z)
| EvLog (level : loglevel) (msg : string)
| EvSleepNs (nanoseconds : Z).     (* a sleep of a float number of seconds *)

Record env := mkEnv {
  clock : nat -> clock_reading;
  http_get : nat -> get_outcome;
  http_post : nat -> post_outcome;
  etree_fromstring : string -> option (list url_element);
  shutdown_flag : nat -> bool;
  unicode_title : string -> string   (* str.title() beyond ASCII *)
}.

Record world := mkWorld {
  w_db : Db.database;
  w_ticks : nat;          (* clock readings taken *)
  w_gets : nat;           (* GET requests made *)
  w_posts : nat;          (* POST requests made *)
  w_flag_reads : nat;     (* times the shutdown flag was looked at *)
  w_consecutive_failures : Z;   (* the local variable of [main] *)
  w_trace : list event    (* oldest first *)
}.

Definition M (A : Type) : Type := env -> world -> result A * world.

#[global] Instance M_ret : MRet M := fun A a _ w => (Ok a, w).
#[global] Instance M_bind : MBind M := fun A B k c e w =>
  match c e w with
  | (Ok a, w') => k a e w'
  | (Raise x, w') => (Raise x, w')
  end.

Definition raise {A} (x : pyexn) : M A := fun _ w => (Raise x, w).

(** [except requests.RequestException] catches the class and no other. *)
Definition is_request_exception (x : pyexn) : bool :=
  match x with
  | RequestException => true
  | _ => false
  end.

(** [try: c  except Exception as e: h e] *)
Definition try_except {A} (c : M A) (h : pyexn -> M A) : M A := fun e w =>
  match c e w with
  | (Ok a, w') => (Ok a, w')
  | (Raise x, w') => h x e w'
  end.

Definition lift_result {A} (r : result A) : M A := fun _ w => (r, w).

Definition emit (ev : event) : M unit := fun _ w =>
  (Ok tt, mkWorld (w_db w) (w_ticks w) (w_gets w) (w_posts w)
                  (w_flag_reads w) (w_consecutive_failures w) (w_trace w ++ [ev])).

Definition log (level : loglevel) (msg : string) : M unit :=
  emit (EvLog level msg).

(** [time.sleep] turns its argument into a 64-bit count of nanoseconds;
    what does not fit is an [OverflowError], a negative length a
    [ValueError]. *)
Definition SLEEP_MAX : Z := 9223372036.

(** [time.sleep(seconds)] for an int. *)
Definition sleep (seconds : Z) : M unit :=
  if (seconds <? - SLEEP_MAX) || (SLEEP_MAX <? seconds)
  then raise OverflowError
  else if seconds <? 0 then raise ValueError
  else emit (EvSleep seconds).

(** A float of seconds in nanoseconds, rounded away from zero. *)
Definition nanoseconds (x : Binary64.float) : Z :=
  let d := Binary64.fmul x (10 ^ 9 * Binary64.SCALE) in
  if 0 <=? d then - (- d / Binary64.SCALE) else d / Binary64.SCALE.

(** [time.sleep(x)] for a float. *)
Definition sleep_float (x : Binary64.float) : M unit :=
  let ns := nanoseconds x in
  if (ns <? - 2 ^ 63) || (2 ^ 63 <=? ns) then raise OverflowError
  else if ns <? 0 then raise ValueError
  else emit (EvSleepNs ns).

(** [time.sleep(v)] for a value read from JSON. *)
Definition time_sleep (v : pyvalue) : M unit :=
  match v with
  | PyInt n => sleep n
  | PyBool b => sleep (if b then 1 else 0)
  | PyFloat x _ => sleep_float x
  | PyNaN => raise ValueError
  | PyOther _ => raise TypeError
  end.

Definition read_clock : M clock_reading := fun e w =>
  (Ok (clock e (w_ticks w)),
   mkWorld (w_db w) (S (w_ticks w)) (w_gets w) (w_posts w)
           (w_flag_reads w) (w_consecutive_failures w) (w_trace w)).

(** [datetime.now(tz)] *)
Definition datetime_now : M datetime := r ← read_clock; mret (local_now r).

(** [int(time.time())] *)
Definition time_time : M Z := r ← read_clock; mret (epoch r).

Definition requests_get (url : string) : M get_outcome := fun e w =>
  (Ok (http_get e (w_gets w)),
   mkWorld (w_db w) (w_ticks w) (S (w_gets w)) (w_posts w)
           (w_flag_reads w) (w_consecutive_failures w)
           (w_trace w ++ [EvGet url])).

Definition requests_post (url : string) (body : payload) : M post_outcome :=
  fun e w =>
  (Ok (http_post e (w_posts w)),
   mkWorld (w_db w) (w_ticks w) (w_gets w) (S (w_posts w))
           (w_flag_reads w) (w_consecutive_failures w)
           (w_trace w ++ [EvPost url body])).

Definition read_shutdown_flag : M bool := fun e w =>
  (Ok (shutdown_flag e (w_flag_reads w)),
   mkWorld (w_db w) (w_ticks w) (w_gets w) (w_posts w)
           (S (w_flag_reads w)) (w_consecutive_failures w) (w_trace w)).

(** A ledger query, which reads the store. *)
Definition db_read {A} (f : Db.database -> A) : M A := fun _ w =>
  (Ok (f (w_db w)), w).

(** A ledger statement, which commits a new store. *)
Definition db_write {A} (f : Db.database -> A * Db.database) : M A :=
  fun _ w =>
  let '(a, db') := f (w_db w) in
  (Ok a, mkWorld db' (w_ticks w) (w_gets w) (w_posts w)
                 (w_flag_reads w) (w_consecutive_failures w) (w_trace w)).

(** A ledger statement that the database may refuse. *)
Definition db_try {A} (f : Db.database -> result A * Db.database) : M A :=
  fun _ w =>
  let '(r, db') := f (w_db w) in
  (r, mkWorld db' (w_ticks w) (w_gets w) (w_posts w)
              (w_flag_reads w) (w_consecutive_failures w) (w_trace w)).

(** The XML parser's verdict on a document: [None] for
    [etree.XMLSyntaxError], else the [sm:url] children of the root. *)
Definition parse_xml (xml_content : string)
  : M (option (list url_element)) := fun e w =>
  (Ok (etree_fromstring e xml_content), w).

Definition get_failures : M Z := fun _ w => (Ok (w_consecutive_failures w), w).

Definition set_failures (n : Z) : M unit := fun _ w =>
  (Ok tt, mkWorld (w_db w) (w_ticks w) (w_gets w) (w_posts w)
                  (w_flag_reads w) n (w_trace w)).

(** [response.raise_for_status()] raises for 4xx and 5xx. *)
Definition is_error_status (status : Z) : bool :=
  (400 <=? status) && (status <? 600).

End Runtime.

Export Runtime.

(** ** The str methods the sources use

    A [str] is held as the bytes of its UTF-8 encoding, which is how the
    string literals of this file are read. *)

Module Str.

Definition code (c : ascii) : N := N_of_ascii c.

(** The white space of [str.strip()] and [str.isspace()]: U+0009 to
    U+000D, U+001C to U+0020, and beyond ASCII U+0085, U+00A0, U+1680,
    U+2000 to U+200A, U+2028, U+2029, U+202F, U+205F and U+3000, here by
    the bytes of their encodings. *)
Definition is_space (c : ascii) : bool :=
  let n := code c in
  (((9 <=? n) && (n <=? 13)) || ((28 <=? n) && (n <=? 32)))%N.

Definition is_space2 (c1 c2 : ascii) : bool :=
  ((code c1 =? 194) && ((code c2 =? 133) || (code c2 =? 160)))%N.

Definition is_space3 (c1 c2 c3 : ascii) : bool :=
  let n1 := code c1 in
  let n2 := code c2 in
  let n3 := code c3 in
  (((n1 =? 225) && (n2 =? 154) && (n3 =? 128))
   || ((n1 =? 226) && (n2 =? 128)
       && (((128 <=? n3) && (n3 <=? 138))
           || (n3 =? 168) || (n3 =? 169) || (n3 =? 175)))
   || ((n1 =? 226) && (n2 =? 129) && (n3 =? 159))
   || ((n1 =? 227) && (n2 =? 128) && (n3 =? 128)))%N.

(** The number of bytes of the white-space character a text begins with;
    0 when it begins with none. *)
Definition space_width (l : list ascii) : nat :=
  match l with
  | c1 :: c2 :: c3 :: _ =>
      if is_space c1 then 1
      else if is_space2 c1 c2 then 2
      else if is_space3 c1 c2 c3 then 3 else 0
  | [c1; c2] => if is_space c1 then 1 else if is_space2 c1 c2 then 2 else 0
  | [c1] => if is_space c1 then 1 else 0
  | [] => 0
  end%nat.

(** The same for the character a text ends with, on the reversed bytes. *)
Definition space_width_end (r : list ascii) : nat :=
  match r with
  | c3 :: c2 :: c1 :: _ =>
      if is_space c3 then 1
      else if is_space2 c2 c3 then 2
      else if is_space3 c1 c2 c3 then 3 else 0
  | [c2; c1] => if is_space c2 then 1 else if is_space2 c1 c2 then 2 else 0
  | [c1] => if is_space c1 then 1 else 0
  | [] => 0
  end%nat.

Fixpoint drop_spaces (width : list ascii -> nat) (fuel : nat) (l : list ascii)
  : list ascii :=
  match fuel with
  | O => l
  | S fuel' =>
      match width l with
      | O => l
      | n => drop_spaces width fuel' (skipn n l)
      end
  end.

Definition lstrip_space (l : list ascii) : list ascii :=
  drop_spaces space_width (length l) l.

Definition rstrip_space (l : list ascii) : list ascii :=
  rev (drop_spaces space_width_end (length l) (rev l)).

Definition is_lower (c : ascii) : bool :=
  let n := code c in ((97 <=? n) && (n <=? 122))%N.

Definition is_upper (c : ascii) : bool :=
  let n := code c in ((65 <=? n) && (n <=? 90))%N.

Definition to_upper (c : ascii) : ascii :=
  if is_lower c then ascii_of_N (code c - 32) else c.

Definition to_lower (c : ascii) : ascii :=
  if is_upper c then ascii_of_N (code c + 32) else c.

Fixpoint lstrip_chars (p : ascii -> bool) (l : list ascii) : list ascii :=
  match l with
  | c :: l' => if p c then lstrip_chars p l' else l
  | [] => []
  end.

Definition rstrip_chars (p : ascii -> bool) (l : list ascii) : list ascii :=
  rev (lstrip_chars p (rev l)).

(** [s.strip()] *)
Definition strip (s : string) : string :=
  string_of_list_ascii (rstrip_space (lstrip_space (list_ascii_of_string s))).

(** [s.rstrip(c)] for a single character [c] *)
Definition rstrip_char (c : ascii) (s : string) : string :=
  string_of_list_ascii
    (rstrip_chars (Ascii.eqb c) (list_ascii_of_string s)).

(** [s.split(sep)] for a single character [sep]; never empty. *)
Fixpoint split_chars (sep : ascii) (l : list ascii) : list (list ascii) :=
  match l with
  | [] => [[]]
  | c :: l' =>
      match split_chars sep l' with
      | w :: ws => if Ascii.eqb c sep then [] :: w :: ws else (c :: w) :: ws
      | [] => [[c]]
      end
  end.

Definition split (sep : ascii) (s : string) : list string :=
  map string_of_list_ascii (split_chars sep (list_ascii_of_string s)).

(** [s.replace(a, b)] for single characters *)
Definition replace_char (a b : ascii) (s : string) : string :=
  string_of_list_ascii
    (map (fun c => if Ascii.eqb c a then b else c) (list_ascii_of_string s)).

Fixpoint title_chars (previous_is_cased : bool) (l : list ascii) : list ascii :=
  match l with
  | [] => []
  | c :: l' =>
      if is_lower c then
        (if previous_is_cased then c else to_upper c) :: title_chars true l'
      else if is_upper c then
        (if previous_is_cased then to_lower c else c) :: title_chars true l'
      else c :: title_chars false l'
  end.

(** [s.title()] for ASCII text *)
Definition title (s : string) : string :=
  string_of_list_ascii (title_chars false (list_ascii_of_string s)).

Definition is_ascii (s : string) : bool :=
  forallb (fun c => (code c <? 128)%N) (list_ascii_of_string s).

(** [s.title()]: beyond ASCII by the interpreter's case tables. *)
Definition title_with (table : string -> string) (s : string) : string :=
  if is_ascii s then title s else table s.

(** [c in s] *)
Definition contains (c : ascii) (s : string) : bool :=
  existsb (Ascii.eqb c) (list_ascii_of_string s).

(** The first [n] characters of a text: a byte of the form 10xxxxxx
    continues the character before it. *)
Definition is_continuation (c : ascii) : bool :=
  ((128 <=? code c) && (code c <? 192))%N.

Fixpoint take_chars (n : nat) (l : list ascii) : list ascii :=
  match l with
  | [] => []
  | c :: l' =>
      if is_continuation c then c :: take_chars n l'
      else match n with
           | O => []
           | S n' => c :: take_chars n' l'
           end
  end.

(** [s[:n]] *)
Definition prefix (n : nat) (s : string) : string :=
  string_of_list_ascii (take_chars n (list_ascii_of_string s)).

Definition is_empty (s : string) : bool := String.eqb s "".

(** Digits grouped in threes from the right, as the [,] format option. *)
Fixpoint group_thousands (rev_digits : list ascii) (k : nat) : list ascii :=
  match rev_digits with
  | [] => []
  | c :: l' =>
      match k with
      | O => ","%char :: c :: group_thousands l' 2
      | S k' => c :: group_thousands l' k'
      end
  end.

Definition two_digits (n : Z) : string :=
  if n <? 10 then "0" +:+ pretty n else pretty n.

(** [sys.get_int_max_str_digits()]: an int of more decimal digits is not
    turned into text. *)
Definition MAX_STR_DIGITS : Z := 4300.

(** [f"{n}"] for an int *)
Definition str_of_int (n : Z) : result string :=
  if 10 ^ MAX_STR_DIGITS <=? Z.abs n then Raise ValueError else Ok (pretty n).

(** [f"{value:,.2f}"] for an amount held in cents *)
Definition format_money (cents : Z) : string :=
  let a := Z.abs cents in
  let digits := rev (list_ascii_of_string (pretty (a / 100))) in
  let grouped := rev (group_thousands digits 3) in
  (if cents <? 0 then "-" else "")
  +:+ string_of_list_ascii grouped +:+ "." +:+ two_digits (a mod 100).

End Str.

(** ** discord_webhook.py *)

Module Webhook.
Import Progress.

Definition MAX_RETRIES : Z := 3.
Definition BASE_DELAY : Z := 2.

Definition _mention (user_id : string) : string :=
  if Str.is_empty user_id then "" else "<@" +:+ user_id +:+ ">".

Definition _dashboard_button (dashboard_url : string) : option string :=
  if Str.is_empty dashboard_url then None else Some dashboard_url.

(** The [except requests.RequestException] block of one attempt. *)
Definition on_request_exception (attempt : Z) : M unit :=
  let delay := BASE_DELAY ^ attempt in
  log WARNING ("Webhook attempt " +:+ pretty attempt +:+ "/"
               +:+ pretty MAX_RETRIES +:+ " failed");;
  if attempt <? MAX_RETRIES then sleep delay
  else log ERROR ("Webhook delivery failed after " +:+ pretty MAX_RETRIES
                  +:+ " attempts.").

(** [f"{retry_after}"] *)
Definition str_of_value (v : pyvalue) : result string :=
  match v with
  | PyInt n => Str.str_of_int n
  | PyBool b => Ok (if b then "True" else "False")
  | PyFloat _ repr => Ok repr
  | PyNaN => Ok "nan"
  | PyOther str => Ok str
  end.

(** The body of [for attempt in range(1, MAX_RETRIES + 1)], over the
    attempt numbers still to come.  In the 429 branch
    [response.json().get("retry_after", 5)] can raise: a
    [RequestException] (a body that is not JSON) goes to the [except]
    block like a failed POST, anything else leaves the function, as does
    what [time.sleep] raises on a delay it refuses. *)
Fixpoint send_attempts (attempts : list Z) (webhook_url : string)
    (body : payload) : M unit :=
  match attempts with
  | [] => mret tt
  | attempt :: rest =>
      response ← requests_post webhook_url body;
      match response with
      | PostRaises =>
          on_request_exception attempt;;
          send_attempts rest webhook_url body
      | PostResponse status json =>
          if status =? 429 then
            match json with
            | JsonRaises x =>
                if is_request_exception x then
                  on_request_exception attempt;;
                  send_attempts rest webhook_url body
                else raise x
            | JsonValue JsonOther => raise AttributeError
            | JsonValue (JsonObject field) =>
                let retry_after := default (PyInt 5) field in
                text ← lift_result (str_of_value retry_after);
                log WARNING ("Rate limited. Retrying after " +:+ text +:+ "s...");;
                time_sleep retry_after;;
                send_attempts rest webhook_url body
            end
          else if is_error_status status then
            on_request_exception attempt;;
            send_attempts rest webhook_url body
          else
            log INFO "Discord webhook sent successfully."
      end
  end.

Definition _send_webhook (webhook_url : string) (body : payload) : M unit :=
  send_attempts (seqZ 1 MAX_RETRIES) webhook_url body.

Definition format_earning_increment (value : Z) : string :=
  "+ $" +:+ Str.format_money value.

Definition format_total_earned (total : Z) : string :=
  "$" +:+ Str.format_money total.

Record notification := mkNotification {
  n_webhook_url : string;
  n_article_title : string;
  n_article_url : string;
  n_article_value : Z;
  n_today_count : Z;
  n_daily_target : Z;
  n_monthly_count : Z;
  n_monthly_target : Z;
  n_streak : Z;
  n_total_earned : Z;
  n_user_id : string;
  n_dashboard_url : string
}.

Definition NL : string := String (ascii_of_nat 10) "".
Definition RULE : string := "━━━━━━━━━━━━━━━━━━━━".

Definition send_article_notification (a : notification) : M unit :=
  let daily_remaining :=
    calculate_daily_remaining (n_today_count a) (n_daily_target a) in
  daily_bar ← lift_result
    (make_progress_bar (n_today_count a) (n_daily_target a) 10);
  monthly_bar ← lift_result
    (make_progress_bar (n_monthly_count a) (n_monthly_target a) 10);
  let earning_str := format_earning_increment (n_article_value a) in
  let total_str := format_total_earned (n_total_earned a) in
  let mention := _mention (n_user_id a) in
  goal_line ← lift_result
    (if 0 <? daily_remaining
     then remaining ← Str.str_of_int daily_remaining;
          Ok ("🎯  " +:+ remaining +:+ " More To Daily Goal")
     else Ok "🎯  ✅ Daily Goal Reached!");
  today_count ← lift_result (Str.str_of_int (n_today_count a));
  daily_target ← lift_result (Str.str_of_int (n_daily_target a));
  streak ← lift_result (Str.str_of_int (n_streak a));
  monthly_count ← lift_result (Str.str_of_int (n_monthly_count a));
  monthly_target ← lift_result (Str.str_of_int (n_monthly_target a));
  let message :=
    "💸  **" +:+ earning_str +:+ "**" +:+ NL
    +:+ "💰  Total This Month: **" +:+ total_str +:+ "**" +:+ NL
    +:+ NL +:+ RULE +:+ NL +:+ NL
    +:+ "🚀  **ARTICLE PUBLISHED**" +:+ NL
    +:+ "📰  " +:+ n_article_title a +:+ NL
    +:+ "🔗  " +:+ n_article_url a +:+ NL
    +:+ NL +:+ RULE +:+ NL +:+ NL
    +:+ "📊  **Today**" +:+ NL
    +:+ "`" +:+ daily_bar +:+ "`" +:+ NL
    +:+ "**" +:+ today_count +:+ " / "
    +:+ daily_target +:+ "** Articles" +:+ NL
    +:+ NL
    +:+ "🔥  **Streak: " +:+ streak +:+ " Day"
    +:+ (if n_streak a =? 1 then "" else "s") +:+ "**" +:+ NL
    +:+ NL +:+ goal_line +:+ NL +:+ NL
    +:+ "📈  **Monthly Progress**" +:+ NL
    +:+ "`" +:+ monthly_bar +:+ "`" +:+ NL
    +:+ "**" +:+ monthly_count +:+ " / "
    +:+ monthly_target +:+ "** Articles" +:+ NL
    +:+ NL +:+ mention in
  _send_webhook (n_webhook_url a)
    (mkPayload (Str.strip message) (_dashboard_button (n_dashboard_url a))).

Definition send_error_alert (webhook_url error_msg : string)
    (consecutive_failures : Z) (user_id : string) : M unit :=
  let mention := _mention user_id in
  failures ← lift_result (Str.str_of_int consecutive_failures);
  let message :=
    "⚠️  **ARTICLE TRACKER — ERROR**" +:+ NL +:+ NL
    +:+ "Sitemap polling has failed **" +:+ failures
    +:+ "** consecutive times." +:+ NL
    +:+ "```" +:+ NL +:+ Str.prefix 500 error_msg +:+ NL +:+ "```" +:+ NL
    +:+ "Bot will keep retrying." +:+ NL
    +:+ NL +:+ mention in
  _send_webhook webhook_url (mkPayload (Str.strip message) None).

Definition send_startup_message (webhook_url config_summary user_id
    dashboard_url : string) : M unit :=
  let mention := _mention user_id in
  let message :=
    "✅  **ARTICLE TRACKER — ONLINE**" +:+ NL +:+ NL
    +:+ "Bot is now running and monitoring articles." +:+ NL
    +:+ "```" +:+ NL +:+ config_summary +:+ NL +:+ "```" +:+ NL
    +:+ NL +:+ mention in
  _send_webhook webhook_url
    (mkPayload (Str.strip message) (_dashboard_button dashboard_url)).

(** *** Calling [send_article_notification] with keyword arguments *)

Inductive pyarg := AStr (s : string) | ANum (n : Z).

Definition PARAMETERS : list string :=
  ["webhook_url"; "article_title"; "article_url"; "article_value";
   "today_count"; "daily_target"; "monthly_count"; "monthly_target";
   "streak"; "total_earned"; "user_id"; "dashboard_url"].

Fixpoint kw_lookup (name : string) (kwargs : list (string * pyarg))
  : option pyarg :=
  match kwargs with
  | [] => None
  | (k, v) :: rest => if String.eqb k name then Some v else kw_lookup name rest
  end.

(** A parameter without a default: a missing argument is a [TypeError]. *)
Definition required_str (name : string) (kwargs : list (string * pyarg))
  : result string :=
  match kw_lookup name kwargs with
  | Some (AStr v) => Ok v
  | _ => Raise TypeError
  end.

Definition required_num (name : string) (kwargs : list (string * pyarg))
  : result Z :=
  match kw_lookup name kwargs with
  | Some (ANum v) => Ok v
  | _ => Raise TypeError
  end.

(** A parameter with the default [""]. *)
Definition optional_str (name : string) (kwargs : list (string * pyarg))
  : result string :=
  match kw_lookup name kwargs with
  | Some (AStr v) => Ok v
  | Some (ANum _) => Raise TypeError
  | None => Ok ""
  end.

(** Binding of the keywords to the parameters: a keyword that names no
    parameter is a [TypeError], and so is a required parameter left
    without a value. *)
Definition bind_arguments (kwargs : list (string * pyarg))
  : result notification :=
  if negb (forallb (fun kv => existsb (String.eqb (fst kv)) PARAMETERS) kwargs)
  then Raise TypeError
  else
    webhook_url ← required_str "webhook_url" kwargs;
    article_title ← required_str "article_title" kwargs;
    article_url ← required_str "article_url" kwargs;
    article_value ← required_num "article_value" kwargs;
    today_count ← required_num "today_count" kwargs;
    daily_target ← required_num "daily_target" kwargs;
    monthly_count ← required_num "monthly_count" kwargs;
    monthly_target ← required_num "monthly_target" kwargs;
    streak ← required_num "streak" kwargs;
    total_earned ← required_num "total_earned" kwargs;
    user_id ← optional_str "user_id" kwargs;
    dashboard_url ← optional_str "dashboard_url" kwargs;
    Ok (mkNotification webhook_url article_title article_url article_value
          today_count daily_target monthly_count monthly_target streak
          total_earned user_id dashboard_url).

Definition call_send_article_notification (kwargs : list (string * pyarg))
  : M unit :=
  a ← lift_result (bind_arguments kwargs);
  send_article_notification a.

End Webhook.

(** ** sitemap_parser.py *)

Module Sitemap.

Record Article := mkEntry {
  url : string;
  title : string;
  publication_date : string;
  keywords : list string
}.

Definition fetch_sitemap (sitemap_url : string) : M (option string) :=
  t ← time_time;
  let cache_buster :=
    (if Str.contains "?" sitemap_url then "&" else "?") +:+ "_cb=" +:+ pretty t in
  let url := sitemap_url +:+ cache_buster in
  response ← requests_get url;
  match response with
  | GetRaises =>
      log ERROR "Failed to fetch sitemap";; mret None
  | GetResponse status content =>
      if is_error_status status then
        log ERROR "Failed to fetch sitemap";; mret None
      else
        log DEBUG ("Sitemap fetched: "
                   +:+ pretty (Z.of_nat (String.length content)) +:+ " bytes");;
        mret (Some content)
  end.

(** [str.title], with the interpreter's tables for text beyond ASCII. *)
Definition titlecase_of (e : env) : string -> string :=
  Str.title_with (unicode_title e).

Definition titlecase : M (string -> string) := fun e w => (Ok (titlecase_of e), w).

(** One turn of [for url_el in url_elements]: the article to append, or
    [None] for an element that is skipped; [str_title] is [str.title]. *)
Definition parse_url_element (str_title : string -> string)
    (url_el : url_element) : option Article :=
  let loc := Str.strip (default "" (el_loc url_el)) in
  if Str.is_empty loc then None
  else
    let title := Str.strip (default "" (el_title url_el)) in
    let pub_date := Str.strip (default "" (el_publication_date url_el)) in
    let keywords_str := Str.strip (default "" (el_keywords url_el)) in
    let keywords :=
      if Str.is_empty keywords_str then []
      else filter (fun k => negb (Str.is_empty k))
             (map Str.strip (Str.split "," keywords_str)) in
    let title :=
      if Str.is_empty title then
        let slug := List.last (Str.split "/" (Str.rstrip_char "/" loc)) "" in
        str_title (Str.replace_char "-" " " slug)
      else title in
    Some (mkEntry loc title pub_date keywords).

Definition parse_sitemap (xml_content : string) : M (list Article) :=
  root ← parse_xml xml_content;
  match root with
  | None =>
      log ERROR "Failed to parse sitemap XML";; mret []
  | Some url_elements =>
      log INFO ("Found " +:+ pretty (Z.of_nat (length url_elements))
                +:+ " URL entries in sitemap");;
      str_title ← titlecase;
      mret (omap (parse_url_element str_title) url_elements)
  end.

Definition fetch_and_parse (sitemap_url : string)
  : M (option (list Article)) :=
  xml_content ← fetch_sitemap sitemap_url;
  match xml_content with
  | None => mret None
  | Some c => articles ← parse_sitemap c; mret (Some articles)
  end.

End Sitemap.

(** ** bot.py *)

Module Bot.
Import Webhook.

Record config := mkConfig {
  sitemap_url : string;
  discord_webhook_url : string;
  discord_user_id : string;
  dashboard_url : string;
  article_value_usd : Z;       (* in cents *)
  daily_target : Z;
  monthly_target : Z;
  poll_interval : Z
}.

(** [streak.update_streak(tz)], with its reading of the clock. *)
Definition update_streak : M Z :=
  now ← datetime_now; db_try (Streak.update_streak now).

Definition insert_article (url title : string)
    (published_at : option datetime) (earning : Z) : M unit :=
  now ← datetime_now;
  db_write (Db.insert_article url title published_at earning now).

Definition get_today_count : M Z :=
  now ← datetime_now; db_read (Db.get_today_count now).
Definition get_today_earned : M Z :=
  now ← datetime_now; db_read (Db.get_today_earned now).
Definition get_monthly_count : M Z :=
  now ← datetime_now; db_read (Db.get_monthly_count now).
Definition get_monthly_earned : M Z :=
  now ← datetime_now; db_read (Db.get_monthly_earned now).

(** The body of [for article in articles], with [new_count] so far. *)
Fixpoint poll_articles (cfg : config) (articles : list Sitemap.Article)
    (new_count : Z) : M Z :=
  match articles with
  | [] => mret new_count
  | article :: rest =>
      known ← db_read (Db.is_known_url (Sitemap.url article));
      if (known : bool) then poll_articles cfg rest new_count
      else
        log INFO ("🆕 New article: " +:+ Sitemap.title article);;
        streak ← update_streak;
        insert_article (Sitemap.url article) (Sitemap.title article) None
          (article_value_usd cfg);;
        today_count ← get_today_count;
        today_earned ← get_today_earned;
        monthly_count ← get_monthly_count;
        monthly_earned ← get_monthly_earned;
        call_send_article_notification
          [("webhook_url", AStr (discord_webhook_url cfg));
           ("article_title", AStr (Sitemap.title article));
           ("article_url", AStr (Sitemap.url article));
           ("article_value", ANum (article_value_usd cfg));
           ("today_count", ANum today_count);
           ("daily_target", ANum (daily_target cfg));
           ("monthly_count", ANum monthly_count);
           ("monthly_target", ANum (monthly_target cfg));
           ("streak", ANum streak);
           ("today_earned", ANum today_earned);
           ("monthly_earned", ANum monthly_earned);
           ("user_id", AStr (discord_user_id cfg));
           ("dashboard_url", AStr (dashboard_url cfg))];;
        let new_count := new_count + 1 in
        (if 1 <? new_count then sleep 1 else mret tt);;
        poll_articles cfg rest new_count
  end.

(** Returns the new article count, or -1 on failure. *)
Definition poll_cycle (cfg : config) : M Z :=
  articles ← Sitemap.fetch_and_parse (sitemap_url cfg);
  match articles with
  | None => mret (-1)
  | Some articles => poll_articles cfg articles 0
  end.


Definition max_failures : Z := 3.

(** The [try] / [except Exception] statement of one turn of the main loop. *)
Definition cycle (cfg : config) : M unit :=
  try_except
    (datetime_now;;
     log INFO "--- Poll ---";;
     result ← poll_cycle cfg;
     if result =? -1 then
       n ← get_failures; set_failures (n + 1);;
       consecutive_failures ← get_failures;
       failures ← lift_result (Str.str_of_int consecutive_failures);
       log WARNING ("Poll failed (" +:+ failures +:+ "/"
                    +:+ pretty max_failures +:+ ")");;
       if max_failures <=? consecutive_failures then
         send_error_alert (discord_webhook_url cfg)
           ("Sitemap fetch failed " +:+ failures +:+ "x in a row.")
           consecutive_failures (discord_user_id cfg);;
         set_failures 0
       else mret tt
     else
       set_failures 0;;
       if 0 <? result
       then log INFO ("✅ " +:+ pretty result +:+ " new article(s)!")
       else log INFO "No new articles.")
    (fun e =>
       log ERROR "Unexpected error";;
       n ← get_failures; set_failures (n + 1)).

(** [for _ in range(poll_interval): if shutdown_flag: break; time.sleep(1)] *)
Fixpoint interruptible_sleep (seconds : nat) : M unit :=
  match seconds with
  | O => mret tt
  | S seconds' =>
      stop ← read_shutdown_flag;
      if (stop : bool) then mret tt
      else sleep 1;; interruptible_sleep seconds'
  end.

(** [while not shutdown_flag: ...], for at most [turns] turns. *)
Fixpoint main_loop (turns : nat) (cfg : config) : M unit :=
  match turns with
  | O => mret tt
  | S turns' =>
      stop ← read_shutdown_flag;
      if (stop : bool) then log INFO "Bot stopped. Goodbye! 👋"
      else
        cycle cfg;;
        interruptible_sleep (Z.to_nat (poll_interval cfg));;
        main_loop turns' cfg
  end.

End Bot.

(** ** dashboard/app.py *)

Module Dashboard.
Import Binary64.

(** [min(100, int((today_count / DAILY_TARGET) * 100)) if DAILY_TARGET > 0
    else 0] *)
Definition today_pct (today_count DAILY_TARGET : Z) : result Z :=
  if 0 <? DAILY_TARGET then
    q ← true_divide today_count DAILY_TARGET;
    hundred ← float_of_int 100;
    p ← int_of_float (fmul q hundred);
    Ok (Z.min 100 p)
  else Ok 0.

(** [min(100, int((monthly_count / MONTHLY_TARGET) * 100))
    if MONTHLY_TARGET > 0 else 0] *)
Definition monthly_pct (monthly_count MONTHLY_TARGET : Z) : result Z :=
  if 0 <? MONTHLY_TARGET then
    q ← true_divide monthly_count MONTHLY_TARGET;
    hundred ← float_of_int 100;
    p ← int_of_float (fmul q hundred);
    Ok (Z.min 100 p)
  else Ok 0.

(** [max(0, DAILY_TARGET - today_count)] *)
Definition daily_remaining (today_count DAILY_TARGET : Z) : Z :=
  Z.max 0 (DAILY_TARGET - today_count).

End Dashboard.

(** * Vocabulary of the properties *)

(** ** Sample dates and ledgers *)

Definition d_2026_03_01 : date := mkDate 2026 3 1.

Definition d_2026_02_28 : date := mkDate 2026 2 28.

Definition d_2026_02_19 : date := mkDate 2026 2 19.

Definition d_2026_03_02 : date := mkDate 2026 3 2.

Definition at_noon (d : date) : datetime := mkDatetime d 43200.

Definition db_with_streak (c : Z) (d : option date) : Db.database :=
  Db.mkDb [] ∅ (Some (Db.mkStreak c d)).

(** The streak [update_streak] computes from the stored streak [c] and the
    stored last publish date [d]. *)
Definition next_streak (today : date) (c : Z) (d : option date) : Z :=
  match d with
  | None => 1
  | Some last =>
      let delta := days_between today last in
      if delta =? 0 then (if 0 <? c then c else 1)
      else if delta =? 1 then c + 1
      else 1
  end.

(** ** What the article records say *)

(** What the article records themselves say: how many of them, and how
    much earning, fall in a window of detection dates. *)
Definition detected_on (d : date) (r : Db.article_row) : bool :=
  bool_decide (dt_date (Db.a_detected_at r) = d).

Definition detected_since (bound : date) (r : Db.article_row) : bool :=
  date_geb (dt_date (Db.a_detected_at r)) bound.

Definition records_count (p : Db.article_row -> bool)
    (rows : list Db.article_row) : Z :=
  Z.of_nat (length (List.filter p rows)).

Definition records_earned (p : Db.article_row -> bool)
    (rows : list Db.article_row) : Z :=
  fold_right (fun r acc => Db.a_earning r + acc) 0 (List.filter p rows).

Definition daily_row_of (d : date) (db : Db.database) : Db.daily_row :=
  default (Db.mkDaily 0 0) (Db.daily_stats db !! d).

(** The consistency invariant between [daily_stats] and [articles]. *)
Definition ledger_consistent (db : Db.database) : Prop :=
  (forall d,
     Db.article_count (daily_row_of d db)
       = records_count (detected_on d) (Db.articles db)
     /\ Db.earned (daily_row_of d db)
       = records_earned (detected_on d) (Db.articles db))
  /\ (forall bound,
     Db.sum_daily_since Db.article_count bound (Db.daily_stats db)
       = records_count (detected_since bound) (Db.articles db)
     /\ Db.sum_daily_since Db.earned bound (Db.daily_stats db)
       = records_earned (detected_since bound) (Db.articles db)).

Definition db_one_article : Db.database :=
  snd (Db.insert_article "https://example.com/a" "A" None 415
         (at_noon d_2026_03_02) Db.init_db).

Definition db_same_article_again : Db.database :=
  snd (Db.insert_article "https://example.com/a" "A" None 415
         (at_noon d_2026_03_02) db_one_article).

(** ** Worlds and answers of the webhook *)

(** The world after one more POST, and after more events. *)
Definition after_post (url : string) (body : payload) (w : world) : world :=
  mkWorld (w_db w) (w_ticks w) (w_gets w) (S (w_posts w)) (w_flag_reads w)
          (w_consecutive_failures w) (w_trace w ++ [EvPost url body]).

Definition after_events (evs : list event) (w : world) : world :=
  mkWorld (w_db w) (w_ticks w) (w_gets w) (w_posts w) (w_flag_reads w)
          (w_consecutive_failures w) (w_trace w ++ evs).

(** An answer without a body that matters (any status but 429). *)
Definition NO_JSON : json_outcome := JsonRaises RequestException.


(** An attempt that ends in the [except] block: a transport failure, a
    4xx/5xx status other than 429, or a 429 whose body is not JSON. *)
Definition is_failure (o : post_outcome) : bool :=
  match o with
  | PostRaises => true
  | PostResponse status json =>
      if status =? 429 then
        match json with
        | JsonRaises x => is_request_exception x
        | JsonValue _ => false
        end
      else is_error_status status
  end.

(** What [time.sleep(v)] traces when it accepts [v]. *)
Definition sleep_event (v : pyvalue) : option event :=
  match v with
  | PyInt n => if (0 <=? n) && (n <=? SLEEP_MAX) then Some (EvSleep n) else None
  | PyBool b => Some (EvSleep (if b then 1 else 0))
  | PyFloat x _ =>
      let ns := nanoseconds x in
      if (0 <=? ns) && (ns <? 2 ^ 63) then Some (EvSleepNs ns) else None
  | PyNaN | PyOther _ => None
  end.

(** The events of a 429 that is waited out: the log line and the sleep. *)
Definition rate_limit_events (retry_after : pyvalue) : option (list event) :=
  match Webhook.str_of_value retry_after, sleep_event retry_after with
  | Ok text, Some ev =>
      Some [EvLog WARNING ("Rate limited. Retrying after " +:+ text +:+ "s..."); ev]
  | _, _ => None
  end.

(** A 429 whose body is a JSON object with a [retry_after] (5 when the
    member is absent) that can be logged and slept: the events traced. *)
Definition is_rate_limited (o : post_outcome) : option (list event) :=
  match o with
  | PostResponse status (JsonValue (JsonObject field)) =>
      if status =? 429 then rate_limit_events (default (PyInt 5) field) else None
  | _ => None
  end.

Definition is_delivered (o : post_outcome) : bool :=
  match o with
  | PostRaises => false
  | PostResponse status _ => negb (status =? 429) && negb (is_error_status status)
  end.

(** An answer after which [_send_webhook] goes on or returns: every answer
    but a 429 whose body or delay makes the 429 branch raise. *)
Definition is_handled (o : post_outcome) : bool :=
  is_failure o || is_delivered o
  || match is_rate_limited o with Some _ => true | None => false end.


Definition SENT : event := EvLog INFO "Discord webhook sent successfully.".



(** Concrete surroundings for the examples. *)
Definition fixed_clock : nat -> clock_reading :=
  fun _ => mkReading (at_noon d_2026_03_02) 1772427600.

Definition no_xml : string -> option (list url_element) := fun _ => None.


Definition world0 : world := mkWorld Db.init_db 0 0 0 0 0 [].







(** ** Worlds and answers of the feed *)

(** The url asked for: the feed url with the cache-defeating parameter. *)
Definition requested_url (sitemap_url : string) (t : Z) : string :=
  sitemap_url
  +:+ ((if Str.contains "?" sitemap_url then "&" else "?") +:+ "_cb=" +:+ pretty t).

(** The world after the clock was read once, one GET made and [evs] traced. *)
Definition fetched (evs : list event) (w : world) : world :=
  mkWorld (w_db w) (S (w_ticks w)) (S (w_gets w)) (w_posts w) (w_flag_reads w)
          (w_consecutive_failures w) (w_trace w ++ evs).

(** A transport failure or a 4xx/5xx status. *)
Definition fetch_failed (o : get_outcome) : bool :=
  match o with
  | GetRaises => true
  | GetResponse status _ => is_error_status status
  end.

Definition FETCH_FAILED : event := EvLog ERROR "Failed to fetch sitemap".

(** Settles the comparisons of a goal that linear arithmetic decides. *)
Ltac decide_comparisons :=
  unfold SLEEP_MAX in *;
  repeat match goal with
  | |- context [?a <? ?b] =>
      first [ replace (a <? b) with false by (symmetry; apply Z.ltb_ge; lia)
            | replace (a <? b) with true by (symmetry; apply Z.ltb_lt; lia) ]
  | |- context [?a <=? ?b] =>
      first [ replace (a <=? b) with false by (symmetry; apply Z.leb_gt; lia)
            | replace (a <=? b) with true by (symmetry; apply Z.leb_le; lia) ]
  end;
  cbn [orb andb negb].

Ltac run_io :=
  repeat progress
    (unfold mbind, M_bind, mret, M_ret, time_time, datetime_now, read_clock,
       requests_get, parse_xml, log, sleep, emit, fetched;
     cbv beta iota zeta;
     cbn [w_db w_ticks w_gets w_posts w_flag_reads w_consecutive_failures
          w_trace]).

Ltac run_poll :=
  cbv [mbind M_bind mret M_ret db_read db_write db_try log emit datetime_now
       read_clock
       Bot.update_streak Bot.insert_article Bot.get_today_count
       Bot.get_today_earned Bot.get_monthly_count Bot.get_monthly_earned];
  cbn [w_db w_ticks w_gets w_posts w_flag_reads w_consecutive_failures w_trace].

Definition cfg0 : Bot.config :=
  Bot.mkConfig "https://example.com/news-sitemap.xml" "https://hook" "42" ""
    415 8 240 2.

Definition accepting : nat -> post_outcome := fun _ => PostResponse 204 NO_JSON.

Definition one_entry (c : string) : option (list url_element) :=
  Some [mkUrlEl (Some ("https://example.com/post-" +:+ c)) None None None].

(** A feed server that answers 500 every time. *)
Definition env_http_500 : env :=
  mkEnv fixed_clock (fun _ => GetResponse 500 "") accepting one_entry
        (fun _ => false) Str.title.

Definition world_one_article : world := mkWorld db_one_article 0 0 0 0 0 [].


Definition world_two_failures : world := mkWorld db_one_article 0 0 0 0 2 [].

(** ** Worlds of the scheduler *)

(** The world in which [poll_cycle] starts within a turn of the loop. *)
Definition poll_started (w : world) : world :=
  mkWorld (w_db w) (S (w_ticks w)) (w_gets w) (w_posts w) (w_flag_reads w)
          (w_consecutive_failures w) (w_trace w ++ [EvLog INFO "--- Poll ---"]).

Definition with_failures (n : Z) (w : world) : world :=
  mkWorld (w_db w) (w_ticks w) (w_gets w) (w_posts w) (w_flag_reads w) n
          (w_trace w).

(** A feed that shows one new article at every fetch. *)
Definition fresh_feed : nat -> get_outcome :=
  fun i => GetResponse 200 (pretty (Z.of_nat i)).

Definition env_fresh_articles : env :=
  mkEnv fixed_clock fresh_feed accepting one_entry (fun _ => false) Str.title.

(** ** The Standard Library's binary64, to compare with *)

(** [float(n)] as a [spec_float] of precision 53 and maximal exponent 1024. *)
Definition sf_of_int (n : Z) : spec_float :=
  binary_normalize 53 1024 n 0 false.

(** A finite [spec_float] in units of 2^-1074. *)
Definition units_of_sf (x : spec_float) : option Z :=
  match x with
  | S754_zero _ => Some 0
  | S754_finite s m e =>
      let v := Z.pos m * 2 ^ (e + 1074) in Some (if s then - v else v)
  | _ => None
  end.

(** [a / b] and [(a / b) * 100] agree with [SFdiv] and [SFmul]. *)
Definition agrees_with_spec_float (a b : Z) : bool :=
  let q := SFdiv 53 1024 (sf_of_int a) (sf_of_int b) in
  match units_of_sf q, Binary64.true_divide a b with
  | Some u, Ok v =>
      (u =? v)
      && match units_of_sf (SFmul 53 1024 q (sf_of_int 100)),
               Binary64.float_of_int 100 with
         | Some p, Ok h => p =? Binary64.fmul v h
         | _, _ => false
         end
  | _, _ => false
  end.

(** ** Bounds on the ratio of the progress bar *)

(** The float nearest [k / w], and one that no quotient [a / b] below
    [(k + 1) / w] with [b <= 2^40] exceeds. *)
Definition ratio_low (w k : Z) : Binary64.float :=
  Binary64.round_pos (k * Binary64.SCALE) w.

Definition ratio_high (w k : Z) : Binary64.float :=
  Binary64.round_pos (((k + 1) * 2 ^ 40 - 1) * Binary64.SCALE) (w * 2 ^ 40).

(** [int(ratio * w)] for a float [ratio >= 0] and a small int [w]. *)
Definition cells (w : Z) (ratio : Binary64.float) : Z :=
  Z.quot (Binary64.round_pos (ratio * (w * Binary64.SCALE)) Binary64.SCALE)
         Binary64.SCALE.

Fixpoint all_below (n : nat) (p : Z -> bool) : bool :=
  match n with
  | O => true
  | S n' => p (Z.of_nat n') && all_below n' p
  end.

(** The checks of the tenths and hundredths, run on 64 fraction bits:
    every float met there has its last place well above 2^-64. *)
Definition FINE : Z := 2 ^ 64.

Definition ratio_low_fine (w k : Z) : Z := Binary64.round_pos (k * FINE) w.

Definition ratio_high_fine (w k : Z) : Z :=
  Binary64.round_pos (((k + 1) * 2 ^ 40 - 1) * FINE) (w * 2 ^ 40).

Definition cells_fine (w x : Z) : Z := Binary64.round_pos (x * w) 1 / FINE.

Definition is_normal_fine (n d : Z) : bool := (n =? 0) || (2 ^ 52 <=? n / d).

Definition tenth_ok (k : Z) : bool :=
  is_normal_fine (k * FINE) 10
  && is_normal_fine (((k + 1) * 2 ^ 40 - 1) * FINE) (10 * 2 ^ 40)
  && is_normal_fine (ratio_low_fine 10 k * 10) 1
  && is_normal_fine (ratio_high_fine 10 k * 10) 1
  && (cells_fine 10 (ratio_low_fine 10 k) =? k)
  && (cells_fine 10 (ratio_high_fine 10 k) =? k)
  && (ratio_high_fine 10 k <? FINE).

Definition hundredth_ok (k : Z) : bool :=
  is_normal_fine (k * FINE) 100
  && is_normal_fine (((k + 1) * 2 ^ 40 - 1) * FINE) (100 * 2 ^ 40)
  && is_normal_fine (ratio_low_fine 100 k * 100) 1
  && is_normal_fine (ratio_high_fine 100 k * 100) 1
  && (k - 1 <=? cells_fine 100 (ratio_low_fine 100 k))
  && (cells_fine 100 (ratio_high_fine 100 k) =? k).

Definition bar (filled percentage : Z) : string :=
  Progress.str_mul Progress.FULL filled
  +:+ Progress.str_mul Progress.EMPTY (10 - filled)
  +:+ " " +:+ pretty percentage +:+ "%".

(** ** Ledgers built by detections *)

(** The urls on record, in insertion order. *)
Definition urls (db : Db.database) : list string :=
  List.map Db.a_url (Db.articles db).









(** A store whose [streak_info] table has no row with id 1. *)
Definition db_without_streak_row : Db.database := Db.mkDb [] ∅ None.

(** [update_streak] called once at each of the moments [nows]. *)
Definition detect_days (nows : list datetime) (db : Db.database) : Db.database :=
  fold_left (fun db now => snd (Streak.update_streak now db)) nows db.

(** Each moment falls on the day after the one before it. *)
Fixpoint one_day_apart (previous : date) (nows : list datetime) : Prop :=
  match nows with
  | [] => True
  | now :: rest =>
      days_between (dt_date now) previous = 1
      /\ one_day_apart (dt_date now) rest
  end.

(** The date of the last of the detections, [first] when there is none. *)
Definition last_day (first : date) (rest : list datetime) : date :=
  List.last (List.map dt_date rest) first.

(** ** Answers of the webhook and notifications, further *)



(** ** Elements and feeds, further *)

(** The text of [sm:loc], stripped; empty when the element has none. *)
Definition loc_of (url_el : url_element) : string :=
  Str.strip (default "" (el_loc url_el)).

(** A text whose first, or last, character is white space. *)
Definition begins_with_space (s : string) : bool :=
  negb (Nat.eqb (Str.space_width (list_ascii_of_string s)) 0).

Definition ends_with_space (s : string) : bool :=
  negb (Nat.eqb (Str.space_width_end (rev (list_ascii_of_string s))) 0).

(** U+00A0, the no-break space, in UTF-8. *)
Definition NBSP : string :=
  String (ascii_of_nat 194) (String (ascii_of_nat 160) EmptyString).

Definition known_in (db : Db.database) (a : Sitemap.Article) : bool :=
  Db.is_known_url (Sitemap.url a) db.

Definition el_padded : url_element :=
  mkUrlEl (Some (NBSP +:+ " https://example.com/a-new-post/ " +:+ NBSP)) None
          (Some " 2026-03-02 ") (Some ("news," +:+ NBSP +:+ ",rocq ,")).

(** A feed of the one article on record and an element with a blank loc. *)
Definition env_known_feed : env :=
  mkEnv fixed_clock (fun _ => GetResponse 200 "<urlset/>") accepting
    (fun _ => Some [mkUrlEl (Some "https://example.com/a") None None None;
                    mkUrlEl (Some "  ") None None None])
    (fun _ => false) Str.title.


(** A feed whose first loc is padded with no-break spaces and whose second
    loc is a no-break space and nothing else. *)
Definition env_padded_feed : env :=
  mkEnv fixed_clock (fun _ => GetResponse 200 "<urlset/>") accepting
    (fun _ => Some [mkUrlEl (Some (NBSP +:+ "https://example.com/a " +:+ NBSP))
                      None None None;
                    mkUrlEl (Some NBSP) None None None])
    (fun _ => false) Str.title.

(** What a turn of the loop does with the result of [poll_cycle]. *)
Definition after_poll (cfg : Bot.config) (result : Z) : M unit :=
  if result =? -1 then
    n ← get_failures; set_failures (n + 1);;
    consecutive_failures ← get_failures;
    failures ← lift_result (Str.str_of_int consecutive_failures);
    log WARNING ("Poll failed (" +:+ failures +:+ "/"
                 +:+ pretty Bot.max_failures +:+ ")");;
    if Bot.max_failures <=? consecutive_failures then
      Webhook.send_error_alert (Bot.discord_webhook_url cfg)
        ("Sitemap fetch failed " +:+ failures +:+ "x in a row.")
        consecutive_failures (Bot.discord_user_id cfg);;
      set_failures 0
    else mret tt
  else
    set_failures 0;;
    if 0 <? result
    then log INFO ("✅ " +:+ pretty result +:+ " new article(s)!")
    else log INFO "No new articles.".

(** The shutdown flag is set from its third reading on. *)
Definition env_stop_at_third_read : env :=
  mkEnv fixed_clock (fun _ => GetRaises) accepting no_xml
    (fun i => (2 <=? i)%nat) Str.title.

(** ** The ratio of the bar *)

(** [min(current / target, 1.0)] for two ints, [target > 0]. *)
Definition bar_ratio (a b : Z) : Binary64.float :=
  Binary64.fmin (Binary64.round_pos (a * Binary64.SCALE) b) Binary64.ONE.

(** * Properties *)

(** ** Calendar *)

Lemma days_before_year_succ y :
  days_before_year (y + 1) = days_before_year y + 365 + (if is_leap y then 1 else 0).
Proof.
  unfold days_before_year, is_leap. cbv zeta.
  replace (y + 1 - 1) with y by lia.
  destruct (Z.eqb_spec (y mod 4) 0); destruct (Z.eqb_spec (y mod 100) 0);
    destruct (Z.eqb_spec (y mod 400) 0); cbn [negb andb orb];
    Z.div_mod_to_equations; lia.
Qed.

Lemma days_before_year_mono y1 y2 :
  y1 <= y2 -> days_before_year y1 <= days_before_year y2.
Proof.
  intros H. unfold days_before_year. cbv zeta.
  Z.div_mod_to_equations. lia.
Qed.

Lemma month_cases m :
  1 <= m <= 12 ->
  m = 1 \/ m = 2 \/ m = 3 \/ m = 4 \/ m = 5 \/ m = 6 \/ m = 7 \/ m = 8
  \/ m = 9 \/ m = 10 \/ m = 11 \/ m = 12.
Proof. lia. Qed.

Lemma days_before_month_succ y m :
  1 <= m <= 12 ->
  days_before_month y m + days_in_month y m
  = if m =? 12 then 365 + (if is_leap y then 1 else 0)
    else days_before_month y (m + 1).
Proof.
  intros Hm. unfold days_before_month, days_in_month.
  destruct (month_cases m Hm) as [->|[->|[->|[->|[->|[->|[->|[->|[->|[->|[->| ->]]]]]]]]]]];
    destruct (is_leap y); reflexivity.
Qed.

Lemma days_before_month_mono y m1 m2 :
  1 <= m1 -> m1 <= m2 -> m2 <= 12 ->
  days_before_month y m1 <= days_before_month y m2.
Proof.
  intros H1 H12 H2. unfold days_before_month.
  destruct (month_cases m1 ltac:(lia)) as [->|[->|[->|[->|[->|[->|[->|[->|[->|[->|[->| ->]]]]]]]]]]];
    destruct (month_cases m2 ltac:(lia)) as [->|[->|[->|[->|[->|[->|[->|[->|[->|[->|[->| ->]]]]]]]]]]];
    try lia; destruct (is_leap y); vm_compute; discriminate.
Qed.

Lemma days_before_month_bounds y m :
  1 <= m <= 12 -> 0 <= days_before_month y m.
Proof.
  intros Hm. pose proof (days_before_month_mono y 1 m ltac:(lia) ltac:(lia) ltac:(lia)) as H.
  unfold days_before_month in H at 1. simpl in H. exact H.
Qed.

(** A later valid date has a larger ordinal. *)
Lemma toordinal_lt a b :
  valid_date a -> valid_date b -> date_ltb a b = true ->
  toordinal a < toordinal b.
Proof.
  intros (Hya & Hma & Hda) (Hyb & Hmb & Hdb) Hlt.
  unfold date_ltb in Hlt. unfold toordinal.
  apply orb_prop in Hlt as [Hy|Hrest].
  - apply Z.ltb_lt in Hy.
    pose proof (days_before_month_succ (year a) (month a) Hma) as Hsucc.
    pose proof (days_before_year_succ (year a)) as Hnext.
    pose proof (days_before_year_mono (year a + 1) (year b) ltac:(lia)) as Hmono.
    pose proof (days_before_month_bounds (year b) (month b) Hmb) as Hb0.
    pose proof (days_before_month_succ (year a) 12 ltac:(lia)) as Hlast.
    change (12 =? 12) with true in Hlast. cbv iota in Hlast.
    assert (H31 : days_in_month (year a) 12 = 31)
      by (unfold days_in_month; destruct (is_leap (year a)); reflexivity).
    set (leap := if is_leap (year a) then 1 else 0) in *. clearbody leap.
    assert (Hin : days_before_month (year a) (month a) + days_in_month (year a) (month a)
                  <= 365 + leap).
    { rewrite Hsucc. destruct (Z.eqb_spec (month a) 12) as [|Hne]; [lia|].
      pose proof (days_before_month_mono (year a) (month a + 1) 12
                    ltac:(lia) ltac:(lia) ltac:(lia)) as H12.
      lia. }
    lia.
  - apply andb_prop in Hrest as [Hy Hrest]. apply Z.eqb_eq in Hy.
    rewrite <- Hy in *.
    apply orb_prop in Hrest as [Hm|Hrest].
    + apply Z.ltb_lt in Hm.
      pose proof (days_before_month_succ (year a) (month a) Hma) as Hsucc.
      destruct (Z.eqb_spec (month a) 12) as [|Hne]; [lia|].
      pose proof (days_before_month_mono (year a) (month a + 1) (month b)
                    ltac:(lia) ltac:(lia) ltac:(lia)) as Hmono.
      lia.
    + apply andb_prop in Hrest as [Hm Hd]. apply Z.eqb_eq in Hm.
      apply Z.ltb_lt in Hd. rewrite Hm. lia.
Qed.

(** ** Streak engine *)

Lemma fits_integer_spec n :
  Db.fits_integer n = true <-> - 2 ^ 31 <= n < 2 ^ 31.
Proof. unfold Db.fits_integer. rewrite andb_true_iff. lia. Qed.

Lemma next_streak_bounds today c d :
  0 <= c -> 1 <= next_streak today c d <= c + 1.
Proof.
  intros Hc. unfold next_streak. destruct d as [last|]; [|lia]. cbv zeta.
  destruct (days_between today last =? 0).
  - destruct (Z.ltb_spec 0 c); lia.
  - destruct (days_between today last =? 1); lia.
Qed.


Lemma next_streak_first today c d : d = None -> next_streak today c d = 1.
Proof. intros ->. reflexivity. Qed.


Lemma next_streak_next_day today c d last :
  d = Some last -> days_between today last = 1 ->
  next_streak today c d = c + 1.
Proof.
  intros -> Hgap. unfold next_streak. cbv zeta. rewrite Hgap. reflexivity.
Qed.

Lemma next_streak_reset today c d last :
  d = Some last ->
  days_between today last <> 0 -> days_between today last <> 1 ->
  next_streak today c d = 1.
Proof.
  intros -> H0 H1. unfold next_streak. cbv zeta.
  destruct (Z.eqb_spec (days_between today last) 0); [contradiction|].
  destruct (Z.eqb_spec (days_between today last) 1); [contradiction|].
  reflexivity.
Qed.

Section StreakFacts.

Variables (now : datetime) (db : Db.database).

Variables (c : Z) (d : option date).

Hypothesis stored : Db.streak_info db = Some (Db.mkStreak c d).

Let today := dt_date now.

Lemma update_streak_unfold :
  Streak.update_streak now db =
    if Db.fits_integer (next_streak today c d)
    then (Ok (next_streak today c d),
          Db.mkDb (Db.articles db) (Db.daily_stats db)
            (Some (Db.mkStreak (next_streak today c d) (Some today))))
    else (Raise NumericValueOutOfRange, db).
Proof.
  unfold Streak.update_streak, Db.get_streak, Db.update_streak.
  rewrite stored. cbn [Db.current_streak Db.last_publish_date].
  fold today. fold (next_streak today c d).
  destruct (Db.fits_integer (next_streak today c d)); reflexivity.
Qed.

(** A streak the column holds is returned and written back with today's
    date; the other two tables are not touched. *)
Lemma update_streak_accepted :
  Db.fits_integer (next_streak today c d) = true ->
  Streak.update_streak now db
  = (Ok (next_streak today c d),
     Db.mkDb (Db.articles db) (Db.daily_stats db)
       (Some (Db.mkStreak (next_streak today c d) (Some today)))).
Proof. intros Hfits. rewrite update_streak_unfold, Hfits. reflexivity. Qed.

(** A streak the column cannot hold: the call raises and the ledger is as
    it was. *)
Lemma update_streak_refused :
  Db.fits_integer (next_streak today c d) = false ->
  Streak.update_streak now db = (Raise NumericValueOutOfRange, db).
Proof. intros Hfits. rewrite update_streak_unfold, Hfits. reflexivity. Qed.

Lemma update_streak_writes_back :
  Db.fits_integer (next_streak today c d) = true ->
  let r := Streak.update_streak now db in
  fst r = Ok (next_streak today c d)
  /\ Db.streak_info (snd r)
     = Some (Db.mkStreak (next_streak today c d) (Some today))
  /\ Db.articles (snd r) = Db.articles db
  /\ Db.daily_stats (snd r) = Db.daily_stats db.
Proof. intros Hfits. rewrite (update_streak_accepted Hfits). simpl. auto. Qed.

End StreakFacts.

Lemma days_between_same (a : date) : days_between a a = 0.
Proof. unfold days_between. lia. Qed.




Example streak_yesterday_5 :
  fst (Streak.update_streak (at_noon d_2026_03_01)
         (db_with_streak 5 (Some d_2026_02_28))) = Ok 6.
Proof. reflexivity. Qed.

Example streak_today_3 :
  fst (Streak.update_streak (at_noon d_2026_03_01)
         (db_with_streak 3 (Some d_2026_03_01))) = Ok 3.
Proof. reflexivity. Qed.

Example streak_today_0 :
  fst (Streak.update_streak (at_noon d_2026_03_01)
         (db_with_streak 0 (Some d_2026_03_01))) = Ok 1.
Proof. reflexivity. Qed.

Example streak_ten_days_ago :
  days_between d_2026_03_01 d_2026_02_19 = 10
  /\ fst (Streak.update_streak (at_noon d_2026_03_01)
            (db_with_streak 7 (Some d_2026_02_19))) = Ok 1.
Proof. split; reflexivity. Qed.

Example streak_first_ever :
  Streak.update_streak (at_noon d_2026_03_01) Db.init_db
  = (Ok 1, db_with_streak 1 (Some d_2026_03_01)).
Proof. reflexivity. Qed.

(** C10. When the stored last publish date lies after today (a negative
    gap), [update_streak] returns 1 and stores today's date: the reset
    branch is taken for every gap other than 0 and 1, and a valid date
    after today always gives a negative gap. *)
Theorem update_streak_negative_gap (now : datetime) (db : Db.database)
    (c : Z) (last : date) :
  Db.streak_info db = Some (Db.mkStreak c (Some last)) ->
  let today := dt_date now in
  let r := Streak.update_streak now db in
  (days_between today last <> 0 -> days_between today last <> 1 ->
     fst r = Ok 1
     /\ Db.streak_info (snd r) = Some (Db.mkStreak 1 (Some today)))
  /\ (days_between today last < 0 ->
     fst r = Ok 1
     /\ Db.streak_info (snd r) = Some (Db.mkStreak 1 (Some today)))
  /\ (valid_date today -> valid_date last -> date_ltb today last = true ->
     fst r = Ok 1
     /\ Db.streak_info (snd r) = Some (Db.mkStreak 1 (Some today))).
Proof.
  intros Hrow today r.
  assert (Hgen : days_between today last <> 0 -> days_between today last <> 1 ->
                 fst r = Ok 1
                 /\ Db.streak_info (snd r) = Some (Db.mkStreak 1 (Some today))).
  { intros H0 H1.
    pose proof (next_streak_reset today c (Some last) last eq_refl H0 H1) as Hone.
    assert (Hfits : Db.fits_integer (next_streak today c (Some last)) = true)
      by (rewrite Hone; reflexivity).
    destruct (update_streak_writes_back now db c (Some last) Hrow Hfits)
      as (Hret & Hw & _).
    fold today r in Hret, Hw. rewrite Hone in Hret, Hw.
    split; assumption. }
  split; [exact Hgen|].
  split; [intros Hneg; apply Hgen; lia|].
  intros Htoday Hlast Hafter.
  pose proof (toordinal_lt today last Htoday Hlast Hafter) as Hord.
  apply Hgen; unfold days_between; lia.
Qed.

Lemma update_streak_negative_gap_witness :
  days_between d_2026_03_01 d_2026_03_02 = -1
  /\ Streak.update_streak (at_noon d_2026_03_01)
       (db_with_streak 9 (Some d_2026_03_02))
     = (Ok 1, db_with_streak 1 (Some d_2026_03_01)).
Proof.
  split; [reflexivity|].
  destruct (update_streak_negative_gap (at_noon d_2026_03_01)
              (db_with_streak 9 (Some d_2026_03_02)) 9 d_2026_03_02 eq_refl)
    as (_ & Hneg & _).
  cbv zeta in Hneg. destruct Hneg as (_ & _); [vm_compute; reflexivity|].
  reflexivity.
Defined.

(** ** Ledger *)

Lemma records_count_app p rows r :
  records_count p (rows ++ [r])
  = records_count p rows + (if p r then 1 else 0).
Proof.
  unfold records_count. rewrite List.filter_app, length_app. simpl.
  destruct (p r); simpl; lia.
Qed.

Lemma records_earned_app p rows r :
  records_earned p (rows ++ [r])
  = records_earned p rows + (if p r then Db.a_earning r else 0).
Proof.
  unfold records_earned. rewrite List.filter_app, fold_right_app.
  induction (List.filter p rows) as [|x l IH]; simpl.
  - destruct (p r); simpl; lia.
  - simpl in IH. rewrite IH. lia.
Qed.

(** The [articles] statement alone is an insert-or-ignore. *)
Lemma insert_article_known url title p e now db :
  Db.is_known_url url db = true ->
  Db.articles (snd (Db.insert_article url title p e now db)) = Db.articles db.
Proof.
  intros Hk. unfold Db.insert_article, Db.insert_or_ignore. simpl.
  unfold Db.is_known_url in Hk. rewrite Hk. reflexivity.
Qed.

Lemma insert_article_fresh url title p e now db :
  Db.is_known_url url db = false ->
  Db.articles (snd (Db.insert_article url title p e now db))
  = Db.articles db ++ [Db.mkArticle url title p now e].
Proof.
  intros Hk. unfold Db.insert_article, Db.insert_or_ignore. simpl.
  unfold Db.is_known_url in Hk. rewrite Hk. reflexivity.
Qed.


(** The [daily_stats] statement counts every call. *)
Lemma upsert_daily_row today e stats :
  Db.upsert_daily today e stats !! today
  = Some (Db.mkDaily
            (Db.article_count (default (Db.mkDaily 0 0) (stats !! today)) + 1)
            (Db.earned (default (Db.mkDaily 0 0) (stats !! today)) + e)).
Proof.
  unfold Db.upsert_daily. destruct (stats !! today) as [row|] eqn:Hrow.
  - rewrite lookup_insert_eq. reflexivity.
  - rewrite lookup_insert_eq. reflexivity.
Qed.

Lemma upsert_daily_other today e stats d :
  d <> today -> Db.upsert_daily today e stats !! d = stats !! d.
Proof.
  intros Hne. unfold Db.upsert_daily.
  destruct (stats !! today); rewrite lookup_insert_ne; congruence.
Qed.

Lemma sum_daily_since_insert col bound d row (stats : gmap date Db.daily_row) :
  stats !! d = None ->
  Db.sum_daily_since col bound (<[d := row]> stats)
  = (if date_geb d bound then col row else 0)
    + Db.sum_daily_since col bound stats.
Proof.
  intros Hnone. unfold Db.sum_daily_since.
  rewrite map_fold_insert_L; [|intros; repeat case_match; lia|exact Hnone].
  destruct (date_geb d bound); lia.
Qed.

Lemma sum_daily_since_upsert col delta bound today e
    (stats : gmap date Db.daily_row) :
  col (Db.mkDaily 1 e) = delta ->
  (forall n x, col (Db.mkDaily (n + 1) (x + e)) = col (Db.mkDaily n x) + delta) ->
  Db.sum_daily_since col bound (Db.upsert_daily today e stats)
  = Db.sum_daily_since col bound stats
    + (if date_geb today bound then delta else 0).
Proof.
  intros Hnew Hupd. unfold Db.upsert_daily.
  destruct (stats !! today) as [row|] eqn:Hrow.
  - rewrite <- (insert_delete_id stats today row Hrow) at 2.
    rewrite <- insert_delete_eq.
    rewrite !sum_daily_since_insert by apply lookup_delete_eq.
    destruct row as [n x]. simpl. rewrite Hupd.
    destruct (date_geb today bound); lia.
  - rewrite sum_daily_since_insert by exact Hrow. rewrite Hnew.
    destruct (date_geb today bound); lia.
Qed.

Lemma init_db_consistent : ledger_consistent Db.init_db.
Proof.
  split; intros; split; reflexivity.
Qed.

(** Recording a url that is not yet in [articles] keeps the aggregates
    equal to what the records say. *)
Lemma insert_article_fresh_consistent url title p e now db :
  ledger_consistent db ->
  Db.is_known_url url db = false ->
  ledger_consistent (snd (Db.insert_article url title p e now db)).
Proof.
  intros [Hday Hmonth] Hfresh.
  pose proof (insert_article_fresh url title p e now db Hfresh) as Harts.
  split.
  - intros d. rewrite Harts, records_count_app, records_earned_app.
    change (detected_on d (Db.mkArticle url title p now e))
      with (bool_decide (dt_date now = d)).
    cbn [Db.a_earning].
    destruct (Hday d) as [Hc He]. unfold daily_row_of in *.
    cbn [Db.insert_article snd Db.daily_stats].
    case_bool_decide as Hd.
    + subst d. rewrite upsert_daily_row. simpl. split; lia.
    + rewrite upsert_daily_other by congruence. split; lia.
  - intros bound. rewrite Harts, records_count_app, records_earned_app.
    change (detected_since bound (Db.mkArticle url title p now e))
      with (date_geb (dt_date now) bound).
    cbn [Db.a_earning].
    destruct (Hmonth bound) as [Hc He].
    cbn [Db.insert_article snd Db.daily_stats].
    rewrite (sum_daily_since_upsert Db.article_count 1) by (simpl; auto).
    rewrite (sum_daily_since_upsert Db.earned e) by (simpl; auto).
    destruct (date_geb (dt_date now) bound); split; lia.
Qed.

(** On a consistent ledger the accessors agree with the records. *)
Lemma consistent_accessors now db :
  ledger_consistent db ->
  Db.get_today_count now db
    = records_count (detected_on (dt_date now)) (Db.articles db)
  /\ Db.get_today_earned now db
    = records_earned (detected_on (dt_date now)) (Db.articles db)
  /\ Db.get_monthly_count now db
    = records_count (detected_since (first_of_month now)) (Db.articles db)
  /\ Db.get_monthly_earned now db
    = records_earned (detected_since (first_of_month now)) (Db.articles db).
Proof.
  intros [Hday Hmonth].
  destruct (Hday (dt_date now)) as [Hc He].
  destruct (Hmonth (first_of_month now)) as [Hmc Hme].
  unfold daily_row_of in Hc, He.
  unfold Db.get_today_count, Db.get_today_earned,
    Db.get_monthly_count, Db.get_monthly_earned.
  destruct (Db.daily_stats db !! dt_date now); simpl in *; auto.
Qed.

(** The streak statement leaves both tables, and so the invariant, alone. *)
Lemma update_streak_consistent now db :
  ledger_consistent db -> ledger_consistent (snd (Streak.update_streak now db)).
Proof.
  intros H. unfold Streak.update_streak, Db.get_streak, Db.update_streak.
  destruct (Db.streak_info db) as [[c d]|];
    cbn [Db.current_streak Db.last_publish_date];
    match goal with
    | |- context [Db.fits_integer ?s] => destruct (Db.fits_integer s)
    end; exact H.
Qed.

Lemma first_of_month_counted now :
  1 <= day (dt_date now) -> date_geb (dt_date now) (first_of_month now) = true.
Proof.
  intros Hday. unfold date_geb, first_of_month. simpl.
  rewrite !Z.ltb_irrefl, !Z.eqb_refl. simpl.
  destruct (Z.leb_spec 1 (day (dt_date now))); [reflexivity|lia].
Qed.

(** C1. A second [insert_article] on a url that is already in [articles]
    adds no record, and the totals read from [articles] stay as they were,
    yet the day's [daily_stats] row is incremented once more:
    [article_count] by 1 and [earned] by the earning, and the monthly sums
    with it. *)
Theorem insert_article_known_counts_again url title p e now db :
  Db.is_known_url url db = true ->
  1 <= day (dt_date now) ->
  let db' := snd (Db.insert_article url title p e now db) in
  Db.articles db' = Db.articles db
  /\ Db.get_total_articles db' = Db.get_total_articles db
  /\ Db.get_total_earned db' = Db.get_total_earned db
  /\ Db.get_today_count now db' = Db.get_today_count now db + 1
  /\ Db.get_today_earned now db' = Db.get_today_earned now db + e
  /\ Db.get_monthly_count now db' = Db.get_monthly_count now db + 1
  /\ Db.get_monthly_earned now db' = Db.get_monthly_earned now db + e.
Proof.
  intros Hk Hday db'.
  pose proof (insert_article_known url title p e now db Hk) as Harts.
  fold db' in Harts.
  split; [exact Harts|].
  split; [unfold Db.get_total_articles; rewrite Harts; reflexivity|].
  split; [unfold Db.get_total_earned; rewrite Harts; reflexivity|].
  unfold Db.get_today_count, Db.get_today_earned,
    Db.get_monthly_count, Db.get_monthly_earned.
  subst db'. cbn [Db.insert_article snd Db.daily_stats].
  rewrite upsert_daily_row.
  rewrite (sum_daily_since_upsert Db.article_count 1) by (simpl; auto).
  rewrite (sum_daily_since_upsert Db.earned e) by (simpl; auto).
  rewrite (first_of_month_counted now Hday).
  destruct (Db.daily_stats db !! dt_date now) as [[n x]|]; simpl;
    repeat split; lia.
Qed.

Lemma insert_article_known_counts_again_witness :
  Db.get_total_articles db_same_article_again = 1
  /\ Db.get_today_count (at_noon d_2026_03_02) db_one_article = 1
  /\ Db.get_today_count (at_noon d_2026_03_02) db_same_article_again = 2
  /\ Db.get_today_earned (at_noon d_2026_03_02) db_same_article_again = 830.
Proof.
  destruct (insert_article_known_counts_again "https://example.com/a" "A" None
              415 (at_noon d_2026_03_02) db_one_article)
    as (_ & Htot & _ & Hcount & Hearned & _).
  - vm_compute. reflexivity.
  - vm_compute. discriminate.
  - fold db_same_article_again in Htot, Hcount, Hearned.
    assert (Hone : Db.get_today_count (at_noon d_2026_03_02) db_one_article = 1)
      by (vm_compute; reflexivity).
    assert (Hpay : Db.get_today_earned (at_noon d_2026_03_02) db_one_article = 415)
      by (vm_compute; reflexivity).
    rewrite Htot, Hcount, Hearned, Hone, Hpay.
    repeat split; reflexivity.
Defined.

(** C2. After the same url is recorded twice on one day the day's row holds
    2 articles and 8.30, and the monthly accessors return the same, while
    [articles] has one record, worth 4.15, detected that day and that
    month: the aggregates no longer equal what the records say. *)
Theorem duplicate_insert_breaks_consistency :
  let now := at_noon d_2026_03_02 in
  Db.daily_stats db_same_article_again !! d_2026_03_02 = Some (Db.mkDaily 2 830)
  /\ records_count (detected_on d_2026_03_02)
       (Db.articles db_same_article_again) = 1
  /\ records_earned (detected_on d_2026_03_02)
       (Db.articles db_same_article_again) = 415
  /\ Db.get_monthly_count now db_same_article_again = 2
  /\ Db.get_monthly_earned now db_same_article_again = 830
  /\ records_count (detected_since (first_of_month now))
       (Db.articles db_same_article_again) = 1
  /\ records_earned (detected_since (first_of_month now))
       (Db.articles db_same_article_again) = 415
  /\ ~ ledger_consistent db_same_article_again.
Proof.
  cbv zeta.
  assert (Hrow : Db.daily_stats db_same_article_again !! d_2026_03_02
                 = Some (Db.mkDaily 2 830)) by (vm_compute; reflexivity).
  assert (Hrec : records_count (detected_on d_2026_03_02)
                   (Db.articles db_same_article_again) = 1)
    by (vm_compute; reflexivity).
  repeat split; try (vm_compute; reflexivity); try assumption.
  intros [Hday _]. destruct (Hday d_2026_03_02) as [Hc _].
  unfold daily_row_of in Hc. rewrite Hrow, Hrec in Hc. discriminate Hc.
Qed.

(** ** Webhook delivery *)


Lemma sleep_accepts seconds :
  0 <= seconds <= SLEEP_MAX -> sleep seconds = emit (EvSleep seconds).
Proof.
  intros [H0 H1]. unfold sleep. decide_comparisons. reflexivity.
Qed.

Lemma sleep_runs seconds e w :
  0 <= seconds <= SLEEP_MAX ->
  sleep seconds e w = (Ok tt, after_events [EvSleep seconds] w).
Proof. intros H. rewrite (sleep_accepts seconds H). reflexivity. Qed.

(** [time.sleep] on a value it accepts. *)
Lemma time_sleep_runs v ev e w :
  sleep_event v = Some ev ->
  time_sleep v e w = (Ok tt, after_events [ev] w).
Proof.
  destruct v as [n|b|x repr| |str]; cbn [sleep_event time_sleep];
    try discriminate.
  - destruct (Z.leb_spec 0 n); [|discriminate].
    destruct (Z.leb_spec n SLEEP_MAX); [|discriminate].
    intros [= <-]. apply sleep_runs. lia.
  - intros [= <-]. apply sleep_runs. destruct b; unfold SLEEP_MAX; lia.
  - unfold sleep_float. cbv zeta.
    destruct (Z.leb_spec 0 (nanoseconds x)); [|discriminate].
    destruct (Z.ltb_spec (nanoseconds x) (2 ^ 63)); [|discriminate].
    intros [= <-].
    set (ns := nanoseconds x) in *. clearbody ns.
    decide_comparisons. reflexivity.
Qed.

(** [time.sleep] never touches the ledger, the counter or the webhook. *)
Lemma time_sleep_returns v e w :
  exists r evs, time_sleep v e w = (r, after_events evs w).
Proof.
  assert (Hnil : forall x : pyexn, (Raise x : result unit, w)
                                   = (Raise x, after_events [] w)).
  { intros x. unfold after_events. rewrite app_nil_r. destruct w; reflexivity. }
  assert (Hint : forall n, exists r evs, sleep n e w = (r, after_events evs w)).
  { intros n. unfold sleep.
    destruct ((n <? - SLEEP_MAX) || (SLEEP_MAX <? n));
      [eexists _, []; apply Hnil|].
    destruct (n <? 0); [eexists _, []; apply Hnil|].
    eexists _, [_]. reflexivity. }
  destruct v as [n|b|x repr| |str]; cbn [time_sleep].
  - apply Hint.
  - apply Hint.
  - unfold sleep_float. cbv zeta.
    destruct ((nanoseconds x <? - 2 ^ 63) || (2 ^ 63 <=? nanoseconds x));
      [eexists _, []; apply Hnil|].
    destruct (nanoseconds x <? 0); [eexists _, []; apply Hnil|].
    eexists _, [_]. reflexivity.
  - eexists _, []. apply Hnil.
  - eexists _, []. apply Hnil.
Qed.


Section WebhookSteps.

Variables (e : env) (url : string) (body : payload).

Lemma send_attempts_failure attempt rest w :
  is_failure (http_post e (w_posts w)) = true ->
  Webhook.send_attempts (attempt :: rest) url body e w
  = (Webhook.on_request_exception attempt;;
     Webhook.send_attempts rest url body) e (after_post url body w).
Proof.
  intros Hf. cbn [Webhook.send_attempts]. unfold mbind at 1, M_bind at 1.
  unfold requests_post at 1. fold (after_post url body w).
  destruct (http_post e (w_posts w)) as [|status json]; [reflexivity|].
  cbn [is_failure] in Hf. destruct (status =? 429).
  - destruct json as [x|v]; [|discriminate]. rewrite Hf. reflexivity.
  - rewrite Hf. reflexivity.
Qed.

Lemma send_attempts_rate_limited attempt rest w evs :
  is_rate_limited (http_post e (w_posts w)) = Some evs ->
  Webhook.send_attempts (attempt :: rest) url body e w
  = Webhook.send_attempts rest url body e
      (after_events evs (after_post url body w)).
Proof.
  intros Hr. cbn [Webhook.send_attempts]. unfold mbind at 1, M_bind at 1.
  unfold requests_post at 1. fold (after_post url body w).
  destruct (http_post e (w_posts w)) as [|status [x|[field|]]];
    try discriminate.
  cbn [is_rate_limited] in Hr. destruct (status =? 429); [|discriminate].
  unfold rate_limit_events in Hr.
  destruct (Webhook.str_of_value (default (PyInt 5) field)) as [text|x] eqn:Htext;
    [|discriminate].
  destruct (sleep_event (default (PyInt 5) field)) as [ev|] eqn:Hev;
    [|discriminate].
  injection Hr as <-. cbv beta iota zeta.
  unfold mbind at 1, M_bind at 1. unfold lift_result at 1.
  unfold mbind at 1, M_bind at 1. unfold log at 1, emit at 1.
  unfold mbind at 1, M_bind at 1.
  rewrite (time_sleep_runs _ ev _ _ Hev).
  unfold after_events.
  cbn [w_db w_ticks w_gets w_posts w_flag_reads w_consecutive_failures w_trace].
  rewrite <- !app_assoc. reflexivity.
Qed.

Lemma send_attempts_delivered attempt rest w :
  is_delivered (http_post e (w_posts w)) = true ->
  Webhook.send_attempts (attempt :: rest) url body e w
  = (Ok tt, after_events [SENT] (after_post url body w)).
Proof.
  intros Hd. cbn [Webhook.send_attempts]. unfold mbind at 1, M_bind at 1.
  unfold requests_post at 1. fold (after_post url body w).
  destruct (http_post e (w_posts w)) as [|status ra]; [discriminate|].
  simpl in Hd. apply andb_prop in Hd as [H429 Herr].
  apply negb_true_iff in H429, Herr. rewrite H429, Herr. reflexivity.
Qed.

(** An answer that is not handled: the 429 branch raises, after the POST
    and, at most, the log line of the rate limit. *)
Lemma send_attempts_unhandled attempt rest w :
  is_handled (http_post e (w_posts w)) = false ->
  exists x evs,
    Webhook.send_attempts (attempt :: rest) url body e w
    = (Raise x, after_events evs (after_post url body w)).
Proof.
  intros Hu. cbn [Webhook.send_attempts]. unfold mbind at 1, M_bind at 1.
  unfold requests_post at 1. fold (after_post url body w).
  unfold is_handled in Hu. apply orb_false_iff in Hu as [Hu Hr].
  apply orb_false_iff in Hu as [Hf Hd].
  assert (Hnil : forall (x : pyexn) w0, (Raise x : result unit, w0)
                                        = (Raise x, after_events [] w0)).
  { intros x w0. unfold after_events. rewrite app_nil_r. destruct w0; reflexivity. }
  destruct (http_post e (w_posts w)) as [|status json]; [discriminate|].
  cbn [is_failure is_delivered] in Hf, Hd.
  destruct (status =? 429) eqn:H429.
  - destruct json as [x|[field|]].
    + rewrite Hf. eexists x, []. apply Hnil.
    + cbn [is_rate_limited] in Hr. rewrite H429 in Hr.
      unfold rate_limit_events in Hr. cbv beta iota zeta.
      unfold mbind at 1, M_bind at 1. unfold lift_result at 1.
      destruct (Webhook.str_of_value (default (PyInt 5) field)) as [text|x];
        [|eexists x, []; apply Hnil].
      unfold mbind at 1, M_bind at 1. unfold log at 1, emit at 1.
      unfold mbind at 1, M_bind at 1.
      match goal with
      | |- context [time_sleep ?v e ?w0] =>
          destruct (time_sleep_returns v e w0) as (r & evs & Hsleep);
          destruct (sleep_event v) as [ev|] eqn:Hev;
          [discriminate|]; rewrite Hsleep
      end.
      destruct r as [[]|x].
      * exfalso. clear Hnil.
        destruct (default (PyInt 5) field) as [n|b|y repr| |str];
          cbn [sleep_event time_sleep] in Hev, Hsleep; try discriminate.
        -- unfold sleep in Hsleep.
           destruct (Z.leb_spec 0 n); [|
             replace (n <? 0) with true in Hsleep
               by (symmetry; apply Z.ltb_lt; lia);
             destruct ((n <? - SLEEP_MAX) || (SLEEP_MAX <? n)); discriminate].
           destruct (Z.leb_spec n SLEEP_MAX); [discriminate|].
           replace (SLEEP_MAX <? n) with true in Hsleep
             by (symmetry; apply Z.ltb_lt; lia).
           rewrite orb_true_r in Hsleep. discriminate.
        -- unfold sleep_float in Hsleep. cbv zeta in Hsleep.
           set (ns := nanoseconds y) in *. clearbody ns.
           destruct (Z.leb_spec 0 ns); [|
             replace (ns <? 0) with true in Hsleep
               by (symmetry; apply Z.ltb_lt; lia);
             destruct ((ns <? - 2 ^ 63) || (2 ^ 63 <=? ns)); discriminate].
           destruct (Z.ltb_spec ns (2 ^ 63)); [discriminate|].
           replace (2 ^ 63 <=? ns) with true in Hsleep
             by (symmetry; apply Z.leb_le; lia).
           rewrite orb_true_r in Hsleep. discriminate.
      * eexists x, (_ :: evs). unfold after_events.
        cbn [w_db w_ticks w_gets w_posts w_flag_reads w_consecutive_failures
             w_trace].
        rewrite <- !app_assoc. reflexivity.
    + eexists AttributeError, []. apply Hnil.
  - cbn [negb andb] in Hd. rewrite Hf in Hd. discriminate.
Qed.


(** Every answer is of exactly one of the four kinds. *)
Lemma post_outcome_cases (o : post_outcome) :
  is_failure o = true
  \/ (exists evs, is_rate_limited o = Some evs)
  \/ is_delivered o = true
  \/ is_handled o = false.
Proof.
  unfold is_handled.
  destruct (is_failure o); [left; reflexivity|].
  destruct (is_rate_limited o) as [evs|]; [right; left; eexists; reflexivity|].
  destruct (is_delivered o); [right; right; left; reflexivity|].
  right. right. right. reflexivity.
Qed.

Lemma on_request_exception_runs attempt w :
  1 <= attempt <= 3 ->
  exists evs,
    Webhook.on_request_exception attempt e w = (Ok tt, after_events evs w).
Proof.
  intros Ha.
  assert (H : attempt = 1 \/ attempt = 2 \/ attempt = 3) by lia.
  destruct H as [-> | [-> | ->]]; eexists [_; _];
    unfold Webhook.on_request_exception, mbind, M_bind, log, sleep, emit,
      after_events;
    simpl; rewrite <- app_assoc; reflexivity.
Qed.

(** The loop leaves the ledger and the failure counter alone and posts
    once per attempt at most; it raises only on an answer that is not
    handled. *)
Lemma send_attempts_bounded attempts : forall w,
  Forall (fun attempt => 1 <= attempt <= 3) attempts ->
  exists r w',
    Webhook.send_attempts attempts url body e w = (r, w')
    /\ w_db w' = w_db w
    /\ w_consecutive_failures w' = w_consecutive_failures w
    /\ (w_posts w <= w_posts w' <= w_posts w + length attempts)%nat
    /\ ((forall i, is_handled (http_post e i) = true) -> r = Ok tt).
Proof.
  induction attempts as [|attempt rest IH]; intros w Hrange.
  - exists (Ok tt), w. simpl. repeat split; lia.
  - apply Forall_cons in Hrange as [Ha Hrest].
    destruct (post_outcome_cases (http_post e (w_posts w)))
      as [Hf | [[evs Hr] | [Hd | Hu]]].
    + rewrite (send_attempts_failure _ _ _ Hf).
      destruct (on_request_exception_runs attempt (after_post url body w) Ha)
        as [evs Hevs].
      unfold mbind, M_bind. rewrite Hevs.
      destruct (IH (after_events evs (after_post url body w)) Hrest)
        as (r & w' & Hrun & Hdb & Hcf & Hposts & Hok).
      exists r, w'. rewrite Hrun. simpl in *.
      repeat split; try assumption; lia.
    + rewrite (send_attempts_rate_limited _ _ _ _ Hr).
      destruct (IH (after_events evs (after_post url body w)) Hrest)
        as (r & w' & Hrun & Hdb & Hcf & Hposts & Hok).
      exists r, w'. rewrite Hrun. simpl in *.
      repeat split; try assumption; lia.
    + rewrite (send_attempts_delivered _ _ _ Hd).
      eexists _, _. split; [reflexivity|]. simpl. repeat split; lia.
    + destruct (send_attempts_unhandled attempt rest w Hu) as (x & evs & Hrun).
      rewrite Hrun. eexists _, _. split; [reflexivity|]. simpl.
      repeat split; try lia.
      intros Hall. rewrite Hall in Hu. discriminate.
Qed.

End WebhookSteps.

Lemma attempts_are_1_2_3 : seqZ 1 Webhook.MAX_RETRIES = [1; 2; 3].
Proof. reflexivity. Qed.

Lemma attempts_in_range : Forall (fun attempt => 1 <= attempt <= 3) [1; 2; 3].
Proof. repeat constructor; lia. Qed.

(** [_send_webhook] posts at most three times, whatever the answers, and
    leaves the ledger alone; it returns normally unless an answer is not
    handled. *)
Lemma send_webhook_bounded e url body w :
  exists r w',
    Webhook._send_webhook url body e w = (r, w')
    /\ w_db w' = w_db w
    /\ w_consecutive_failures w' = w_consecutive_failures w
    /\ (w_posts w <= w_posts w' <= w_posts w + 3)%nat
    /\ ((forall i, is_handled (http_post e i) = true) -> r = Ok tt).
Proof.
  unfold Webhook._send_webhook. rewrite attempts_are_1_2_3.
  apply (send_attempts_bounded e url body [1; 2; 3] w attempts_in_range).
Qed.


Lemma after_events_app evs1 evs2 w :
  after_events evs2 (after_events evs1 w) = after_events (evs1 ++ evs2) w.
Proof. unfold after_events. simpl. rewrite <- app_assoc. reflexivity. Qed.










(** ** Feed client and poll cycle *)

Lemma fetch_sitemap_failed sitemap_url e w :
  fetch_failed (http_get e (w_gets w)) = true ->
  Sitemap.fetch_sitemap sitemap_url e w
  = (Ok None,
     fetched [EvGet (requested_url sitemap_url (epoch (clock e (w_ticks w))));
              FETCH_FAILED] w).
Proof.
  intros Hf. unfold Sitemap.fetch_sitemap. run_io.
  destruct (http_get e (w_gets w)) as [|status content_]; simpl in Hf.
  - run_io. rewrite <- app_assoc. reflexivity.
  - rewrite Hf. run_io. rewrite <- app_assoc. reflexivity.
Qed.

Lemma fetch_sitemap_ok sitemap_url e w status xml :
  http_get e (w_gets w) = GetResponse status xml ->
  is_error_status status = false ->
  Sitemap.fetch_sitemap sitemap_url e w
  = (Ok (Some xml),
     fetched [EvGet (requested_url sitemap_url (epoch (clock e (w_ticks w))));
              EvLog DEBUG ("Sitemap fetched: "
                           +:+ pretty (Z.of_nat (String.length xml)) +:+ " bytes")]
       w).
Proof.
  intros Hget Hst. unfold Sitemap.fetch_sitemap. run_io.
  rewrite Hget, Hst. run_io. rewrite <- app_assoc. reflexivity.
Qed.

(** A failed fetch ends the cycle at once. *)
Lemma poll_cycle_stops_on_failed_fetch cfg e w :
  fetch_failed (http_get e (w_gets w)) = true ->
  Bot.poll_cycle cfg e w
  = (Ok (-1),
     fetched [EvGet (requested_url (Bot.sitemap_url cfg)
                       (epoch (clock e (w_ticks w))));
              FETCH_FAILED] w).
Proof.
  intros Hf. unfold Bot.poll_cycle, Sitemap.fetch_and_parse.
  unfold mbind at 1, M_bind at 1. unfold mbind at 1, M_bind at 1.
  rewrite (fetch_sitemap_failed _ _ _ Hf). reflexivity.
Qed.

(** C9. When the feed fetch fails with an HTTP error status (500, say), or
    in transport, the poll cycle returns -1 and the ledger (articles,
    daily_stats and streak row) is as it was; nothing is posted. *)
Theorem poll_cycle_fetch_failure cfg e w :
  fetch_failed (http_get e (w_gets w)) = true ->
  Bot.poll_cycle cfg e w
  = (Ok (-1),
     fetched [EvGet (requested_url (Bot.sitemap_url cfg)
                       (epoch (clock e (w_ticks w))));
              FETCH_FAILED] w)
  /\ w_db (snd (Bot.poll_cycle cfg e w)) = w_db w
  /\ w_posts (snd (Bot.poll_cycle cfg e w)) = w_posts w.
Proof.
  intros Hf. rewrite (poll_cycle_stops_on_failed_fetch cfg e w Hf).
  repeat split; reflexivity.
Qed.

Lemma poll_cycle_fetch_failure_witness :
  Bot.poll_cycle cfg0 env_http_500 world_one_article
  = (Ok (-1),
     mkWorld db_one_article 1 1 0 0 0
       [EvGet "https://example.com/news-sitemap.xml?_cb=1772427600";
        FETCH_FAILED]).
Proof.
  destruct (poll_cycle_fetch_failure cfg0 env_http_500 world_one_article eq_refl)
    as (Hrun & _ & _).
  rewrite Hrun. reflexivity.
Defined.




(** ** Scheduler *)

Lemma cycle_unfold cfg e w :
  Bot.cycle cfg e w
  = match Bot.poll_cycle cfg e (poll_started w) with
    | (Ok result, w1) =>
        match
          (if result =? -1 then
             n ← get_failures; set_failures (n + 1);;
             consecutive_failures ← get_failures;
             failures ← lift_result (Str.str_of_int consecutive_failures);
             log WARNING ("Poll failed (" +:+ failures +:+ "/"
                          +:+ pretty Bot.max_failures +:+ ")");;
             if Bot.max_failures <=? consecutive_failures then
               Webhook.send_error_alert (Bot.discord_webhook_url cfg)
                 ("Sitemap fetch failed " +:+ failures +:+ "x in a row.")
                 consecutive_failures (Bot.discord_user_id cfg);;
               set_failures 0
             else mret tt
           else
             set_failures 0;;
             if 0 <? result
             then log INFO ("✅ " +:+ pretty result +:+ " new article(s)!")
             else log INFO "No new articles.") e w1
        with
        | (Ok a, w2) => (Ok a, w2)
        | (Raise x, w2) =>
            (Ok tt, with_failures (w_consecutive_failures w2 + 1)
                      (after_events [EvLog ERROR "Unexpected error"] w2))
        end
    | (Raise x, w1) =>
        (Ok tt, with_failures (w_consecutive_failures w1 + 1)
                  (after_events [EvLog ERROR "Unexpected error"] w1))
    end.
Proof.
  unfold Bot.cycle, try_except.
  unfold mbind at 1, M_bind at 1. unfold datetime_now at 1.
  unfold mbind at 1, M_bind at 1. unfold read_clock at 1.
  unfold mret at 1, M_ret at 1.
  unfold mbind at 1, M_bind at 1. unfold log at 1, emit at 1.
  cbn [w_db w_ticks w_gets w_posts w_flag_reads w_consecutive_failures w_trace].
  fold (poll_started w).
  unfold mbind at 1, M_bind at 1.
  destruct (Bot.poll_cycle cfg e (poll_started w)) as [[result|x] w1];
    [|reflexivity].
  match goal with
  | |- context [?c e w1] => destruct (c e w1) as [[a|x] w2]
  end; reflexivity.
Qed.


(** The keywords [poll_cycle] passes name [today_earned] and
    [monthly_earned], which are no parameters of
    [send_article_notification], and leave [total_earned] out. *)
Lemma poll_cycle_call_is_type_error (kwargs : list (string * Webhook.pyarg)) :
  (exists v, In ("today_earned", v) kwargs) ->
  Webhook.bind_arguments kwargs = Raise TypeError.
Proof.
  intros [v Hin]. unfold Webhook.bind_arguments.
  destruct (forallb _ kwargs) eqn:Hall; [|reflexivity].
  rewrite forallb_forall in Hall. specialize (Hall _ Hin).
  vm_compute in Hall. discriminate Hall.
Qed.

Lemma call_with_today_earned_raises kwargs e w :
  (exists v, In ("today_earned", v) kwargs) ->
  Webhook.call_send_article_notification kwargs e w = (Raise TypeError, w).
Proof.
  intros Hin. unfold Webhook.call_send_article_notification, lift_result.
  unfold mbind, M_bind.
  rewrite (poll_cycle_call_is_type_error kwargs Hin). reflexivity.
Qed.

Lemma update_streak_keeps_articles now db :
  Db.articles (snd (Streak.update_streak now db)) = Db.articles db.
Proof.
  unfold Streak.update_streak, Db.update_streak.
  destruct (Db.get_streak db) as [c l].
  match goal with
  | |- context [Db.fits_integer ?s] => destruct (Db.fits_integer s)
  end; reflexivity.
Qed.

Lemma update_streak_keeps_known url now db :
  Db.is_known_url url (snd (Streak.update_streak now db)) = Db.is_known_url url db.
Proof. unfold Db.is_known_url. rewrite update_streak_keeps_articles. reflexivity. Qed.

(** A refused streak leaves the whole ledger as it was. *)
Lemma update_streak_raise_keeps now db x :
  fst (Streak.update_streak now db) = Raise x ->
  snd (Streak.update_streak now db) = db.
Proof.
  unfold Streak.update_streak, Db.update_streak.
  destruct (Db.get_streak db) as [c l].
  match goal with
  | |- context [Db.fits_integer ?s] => destruct (Db.fits_integer s)
  end; [discriminate|reflexivity].
Qed.

(** The first article of the feed that the ledger does not know yet: when
    the streak is stored the article is recorded, and then the cycle ends
    in the [TypeError] of the notification call; when the streak is
    refused the cycle ends there, with the ledger as it was.  Either way
    nothing is posted and no count is returned. *)
Lemma poll_articles_first_new cfg a rest n e w :
  Db.is_known_url (Sitemap.url a) (w_db w) = false ->
  exists x w',
    Bot.poll_articles cfg (a :: rest) n e w = (Raise x, w')
    /\ w_posts w' = w_posts w
    /\ w_consecutive_failures w' = w_consecutive_failures w
    /\ match fst (Streak.update_streak (local_now (clock e (w_ticks w)))
                    (w_db w)) with
       | Ok _ =>
           x = TypeError
           /\ Db.articles (w_db w')
              = Db.articles (w_db w)
                ++ [Db.mkArticle (Sitemap.url a) (Sitemap.title a) None
                      (local_now (clock e (S (w_ticks w))))
                      (Bot.article_value_usd cfg)]
       | Raise y => x = y /\ w_db w' = w_db w
       end.
Proof.
  intros Hnew. cbn [Bot.poll_articles].
  run_poll. rewrite Hnew. run_poll.
  pose proof (update_streak_keeps_known (Sitemap.url a)
                (local_now (clock e (w_ticks w))) (w_db w)) as Hknown.
  pose proof (update_streak_keeps_articles
                (local_now (clock e (w_ticks w))) (w_db w)) as Harts.
  pose proof (update_streak_raise_keeps
                (local_now (clock e (w_ticks w))) (w_db w)) as Hkeep.
  destruct (Streak.update_streak _ (w_db w)) as [[streak|y] db1].
  - cbn [fst snd] in *. run_poll.
    destruct (Db.insert_article _ _ _ _ _ db1) as [u db2] eqn:Hins.
    run_poll.
    rewrite call_with_today_earned_raises
      by (eexists; cbn [In]; do 9 right; left; reflexivity).
    eexists _, _. split; [reflexivity|].
    cbn [w_db w_posts w_consecutive_failures].
    split; [reflexivity|]. split; [reflexivity|]. split; [reflexivity|].
    assert (Hfresh : Db.is_known_url (Sitemap.url a) db1 = false)
      by (rewrite Hknown; exact Hnew).
    pose proof (insert_article_fresh (Sitemap.url a) (Sitemap.title a) None
                  (Bot.article_value_usd cfg)
                  (local_now (clock e (S (w_ticks w)))) db1 Hfresh) as Hk.
    rewrite Hins in Hk. cbn [snd] in Hk. rewrite Hk, Harts. reflexivity.
  - cbn [fst snd] in *. eexists _, _. split; [reflexivity|].
    cbn [w_db w_posts w_consecutive_failures].
    split; [reflexivity|]. split; [reflexivity|]. split; [reflexivity|].
    exact (Hkeep y eq_refl).
Qed.

Lemma poll_articles_all_known cfg articles n e w :
  forallb (fun a => Db.is_known_url (Sitemap.url a) (w_db w)) articles = true ->
  Bot.poll_articles cfg articles n e w = (Ok n, w).
Proof.
  induction articles as [|a rest IH]; intros Hall; [reflexivity|].
  cbn [forallb] in Hall. apply andb_prop in Hall as [Ha Hrest].
  cbn [Bot.poll_articles]. run_poll. rewrite Ha. exact (IH Hrest).
Qed.

Lemma poll_articles_some_new cfg articles n e w :
  forallb (fun a => Db.is_known_url (Sitemap.url a) (w_db w)) articles = false ->
  exists x w',
    Bot.poll_articles cfg articles n e w = (Raise x, w')
    /\ w_posts w' = w_posts w
    /\ w_consecutive_failures w' = w_consecutive_failures w.
Proof.
  induction articles as [|a rest IH]; intros Hsome; [discriminate|].
  cbn [forallb] in Hsome.
  destruct (Db.is_known_url (Sitemap.url a) (w_db w)) eqn:Ha.
  - cbn [andb] in Hsome. destruct (IH Hsome) as (x & w' & Hrun & Hp & Hc).
    exists x, w'. cbn [Bot.poll_articles]. run_poll. rewrite Ha.
    split; [exact Hrun|]. split; assumption.
  - destruct (poll_articles_first_new cfg a rest n e w Ha)
      as (x & w' & Hrun & Hp & Hc & _).
    exists x, w'. split; [exact Hrun|]. split; assumption.
Qed.

(** A poll cycle never returns a positive count: it returns -1, or 0, or
    ends in an exception. *)
Lemma poll_cycle_never_counts cfg e w r w' :
  Bot.poll_cycle cfg e w = (Ok r, w') -> r = -1 \/ r = 0.
Proof.
  unfold Bot.poll_cycle. unfold mbind at 1, M_bind at 1.
  destruct (Sitemap.fetch_and_parse (Bot.sitemap_url cfg) e w)
    as [[[articles|]|x] w1]; cbv beta iota.
  - destruct (forallb (fun a => Db.is_known_url (Sitemap.url a) (w_db w1)) articles)
      eqn:Hall.
    + rewrite (poll_articles_all_known cfg articles 0 e w1 Hall).
      intros [= <- _]. right. reflexivity.
    + destruct (poll_articles_some_new cfg articles 0 e w1 Hall)
        as (y & w2 & Hrun & _). rewrite Hrun. discriminate.
  - intros [= <- _]. left. reflexivity.
  - discriminate.
Qed.

(** C7. Three turns of the main loop in each of which the cycle fails with
    an exception caught at the loop's [except]: the counter of consecutive
    failures stands at 3, the threshold, no alert was posted and the
    counter was not reset. *)
Theorem exception_cycles_never_alert :
  let w := snd (Bot.main_loop 3 cfg0 env_fresh_articles world0) in
  w_consecutive_failures w = 3
  /\ w_posts w = 0%nat
  /\ List.filter (fun ev => match ev with
                            | EvLog ERROR _ => true
                            | _ => false
                            end) (w_trace w)
     = [EvLog ERROR "Unexpected error"; EvLog ERROR "Unexpected error";
        EvLog ERROR "Unexpected error"]
  /\ fst (Bot.poll_cycle cfg0 env_fresh_articles (poll_started world0))
     = Raise TypeError
  /\ w_consecutive_failures
       (snd (Bot.main_loop 3 cfg0 env_http_500 world0)) = 0
  /\ w_posts (snd (Bot.main_loop 3 cfg0 env_http_500 world0)) = 1%nat.
Proof. cbv zeta. repeat split; vm_compute; reflexivity. Qed.

(** ** Binary64 rounding *)

Lemma div_le_cross n1 d1 n2 d2 :
  0 <= n1 -> 0 < d1 -> 0 < d2 -> n1 * d2 <= n2 * d1 -> n1 / d1 <= n2 / d2.
Proof.
  intros Hn Hd1 Hd2 Hle.
  apply Z.div_le_lower_bound; [exact Hd2|].
  pose proof (Z.mul_div_le n1 d1 Hd1) as Hq.
  assert (0 <= n1 / d1) by (apply Z.div_pos; lia).
  nia.
Qed.

Lemma round_half_even_bounds n d :
  0 < d -> n / d <= Binary64.round_half_even n d <= n / d + 1.
Proof.
  intros Hd. unfold Binary64.round_half_even.
  repeat match goal with |- context [if ?b then _ else _] => destruct b end; lia.
Qed.

Lemma round_half_even_mono n1 d1 n2 d2 :
  0 <= n1 -> 0 < d1 -> 0 < d2 -> n1 * d2 <= n2 * d1 ->
  Binary64.round_half_even n1 d1 <= Binary64.round_half_even n2 d2.
Proof.
  intros Hn Hd1 Hd2 Hle.
  pose proof (div_le_cross n1 d1 n2 d2 Hn Hd1 Hd2 Hle) as Hq.
  destruct (Z.eq_dec (n1 / d1) (n2 / d2)) as [Heq|Hne].
  - unfold Binary64.round_half_even.
    pose proof (Z.div_mod n1 d1 ltac:(lia)) as E1.
    pose proof (Z.div_mod n2 d2 ltac:(lia)) as E2.
    pose proof (Z.mod_pos_bound n1 d1 Hd1) as B1.
    pose proof (Z.mod_pos_bound n2 d2 Hd2) as B2.
    rewrite <- Heq in *.
    set (q := n1 / d1) in *. set (r1 := n1 mod d1) in *. set (r2 := n2 mod d2) in *.
    assert (Hr : r1 * d2 <= r2 * d1) by nia.
    destruct (Z.ltb_spec (2 * r1) d1); destruct (Z.ltb_spec (2 * r2) d2);
      destruct (Z.ltb_spec d1 (2 * r1)); destruct (Z.ltb_spec d2 (2 * r2));
      destruct (Z.even q); try lia; nia.
  - pose proof (round_half_even_bounds n1 d1 Hd1).
    pose proof (round_half_even_bounds n2 d2 Hd2). lia.
Qed.

Lemma ulp_exp_nonneg n d : 0 <= Binary64.ulp_exp n d.
Proof. unfold Binary64.ulp_exp. lia. Qed.

Lemma round_pos_lower n d :
  0 < d -> 0 < Binary64.ulp_exp n d -> 2 ^ (52 + Binary64.ulp_exp n d) <= Binary64.round_pos n d.
Proof.
  intros Hd He. unfold Binary64.round_pos. set (e := Binary64.ulp_exp n d) in *.
  assert (Hlog : Z.log2 (n / d) = e + 52) by (unfold e, Binary64.ulp_exp in *; lia).
  assert (Hq : 0 < n / d).
  { destruct (Z.lt_ge_cases 0 (n / d)) as [H|H]; [exact H|].
    rewrite (Z.log2_nonpos _ H) in Hlog. lia. }
  destruct (Z.log2_spec _ Hq) as [Hlo _]. rewrite Hlog in Hlo.
  assert (Hpe : 0 < 2 ^ e) by (apply Z.pow_pos_nonneg; lia).
  pose proof (Z.mul_div_le n d Hd) as Hn.
  rewrite Z.pow_add_r in Hlo by lia.
  assert (Hfl : 2 ^ 52 <= n / (d * 2 ^ e)).
  { apply Z.div_le_lower_bound; [nia|]. nia. }
  pose proof (round_half_even_bounds n (d * 2 ^ e) ltac:(nia)) as [Hr _].
  rewrite Z.pow_add_r by lia. nia.
Qed.

Lemma round_pos_upper n d :
  0 <= n -> 0 < d -> Binary64.round_pos n d <= 2 ^ (53 + Binary64.ulp_exp n d).
Proof.
  intros Hn0 Hd. unfold Binary64.round_pos. set (e := Binary64.ulp_exp n d) in *.
  assert (He : 0 <= e) by apply ulp_exp_nonneg.
  assert (Hlog : Z.log2 (n / d) <= e + 52) by (unfold e, Binary64.ulp_exp; lia).
  assert (Hq0 : 0 <= n / d) by (apply Z.div_pos; lia).
  assert (Hq : n / d < 2 ^ (e + 53)).
  { destruct (Z.eq_dec (n / d) 0) as [Hz|Hnz].
    - rewrite Hz. apply Z.pow_pos_nonneg; lia.
    - destruct (Z.log2_spec (n / d) ltac:(lia)) as [_ Hhi].
      eapply Z.lt_le_trans; [exact Hhi|].
      apply Z.pow_le_mono_r; lia. }
  assert (Hpe : 0 < 2 ^ e) by (apply Z.pow_pos_nonneg; lia).
  pose proof (Z.mod_pos_bound n d Hd) as Hm.
  pose proof (Z.div_mod n d ltac:(lia)) as Hdm.
  rewrite Z.pow_add_r in Hq by lia.
  assert (Hfl : n / (d * 2 ^ e) < 2 ^ 53).
  { apply Z.div_lt_upper_bound; [nia|]. nia. }
  pose proof (round_half_even_bounds n (d * 2 ^ e) ltac:(nia)) as [_ Hr].
  rewrite Z.pow_add_r by lia.
  apply Z.mul_le_mono_nonneg_r; lia.
Qed.

Lemma round_pos_mono n1 d1 n2 d2 :
  0 <= n1 -> 0 < d1 -> 0 < d2 -> n1 * d2 <= n2 * d1 ->
  Binary64.round_pos n1 d1 <= Binary64.round_pos n2 d2.
Proof.
  intros Hn Hd1 Hd2 Hle.
  pose proof (div_le_cross n1 d1 n2 d2 Hn Hd1 Hd2 Hle) as Hq.
  assert (He : Binary64.ulp_exp n1 d1 <= Binary64.ulp_exp n2 d2).
  { unfold Binary64.ulp_exp. pose proof (Z.log2_le_mono _ _ Hq). lia. }
  destruct (Z.eq_dec (Binary64.ulp_exp n1 d1) (Binary64.ulp_exp n2 d2)) as [Heq|Hne].
  - unfold Binary64.round_pos. rewrite <- Heq. set (e := Binary64.ulp_exp n1 d1).
    assert (Hpe : 0 < 2 ^ e)
      by (apply Z.pow_pos_nonneg; [lia|apply ulp_exp_nonneg]).
    apply Z.mul_le_mono_nonneg_r; [lia|].
    apply round_half_even_mono; nia.
  - pose proof (ulp_exp_nonneg n1 d1) as H1.
    pose proof (round_pos_upper n1 d1 Hn Hd1) as Hup.
    pose proof (round_pos_lower n2 d2 Hd2 ltac:(lia)) as Hlo.
    assert (2 ^ (53 + Binary64.ulp_exp n1 d1) <= 2 ^ (52 + Binary64.ulp_exp n2 d2))
      by (apply Z.pow_le_mono_r; lia).
    lia.
Qed.

Lemma round_pos_nonneg n d : 0 <= n -> 0 < d -> 0 <= Binary64.round_pos n d.
Proof.
  intros Hn Hd. unfold Binary64.round_pos.
  set (e := Binary64.ulp_exp n d).
  assert (Hpe : 0 < 2 ^ e)
    by (apply Z.pow_pos_nonneg; [lia|apply ulp_exp_nonneg]).
  pose proof (round_half_even_bounds n (d * 2 ^ e) ltac:(nia)) as [Hr _].
  assert (0 <= n / (d * 2 ^ e)) by (apply Z.div_pos; nia).
  nia.
Qed.

Lemma round_units_nonneg n d :
  0 <= n -> Binary64.round_units n d = Binary64.round_pos n d.
Proof.
  intros Hn. unfold Binary64.round_units.
  destruct (Z.ltb_spec n 0); [lia|reflexivity].
Qed.

Lemma SCALE_pos : 0 < Binary64.SCALE.
Proof. reflexivity. Qed.

(** The rounding of [Binary64] is that of the Standard Library's
    specification of IEEE-754 binary64, here on the quotients and products
    of a few bars. *)
Example binary64_agrees_with_spec_float :
  forallb (fun ab => agrees_with_spec_float (fst ab) (snd ab))
    [(1, 3); (29, 100); (5, 8); (57, 100); (-3, 4)] = true.
Proof. vm_compute. reflexivity. Qed.

(** ** Progress bar *)

Lemma all_below_spec n p :
  all_below n p = true -> forall k, 0 <= k < Z.of_nat n -> p k = true.
Proof.
  induction n as [|n IH]; intros Hall k Hk; [lia|].
  simpl in Hall. apply andb_prop in Hall as [Hn Hrest].
  destruct (Z.eq_dec k (Z.of_nat n)) as [->|Hne]; [exact Hn|].
  apply IH; [exact Hrest|lia].
Qed.

Lemma cells_mono w x y :
  0 < w -> 0 <= x -> x <= y -> cells w x <= cells w y.
Proof.
  intros Hw Hx Hxy. unfold cells.
  pose proof SCALE_pos as Hs.
  set (S := Binary64.SCALE) in *. clearbody S.
  assert (Hm : Binary64.round_pos (x * (w * S)) S
               <= Binary64.round_pos (y * (w * S)) S).
  { assert (Hws : 0 < w * S) by nia.
    assert (Hxw : 0 <= x * (w * S)) by nia.
    assert (Hyw : x * (w * S) <= y * (w * S)) by nia.
    apply round_pos_mono; nia. }
  assert (H0 : 0 <= Binary64.round_pos (x * (w * S)) S).
  { apply round_pos_nonneg; nia. }
  rewrite !Z.quot_div_nonneg by lia.
  apply Z.div_le_mono; lia.
Qed.

(** The quotient of two ints lies between the bounds of its [w]-th. *)
Lemma quotient_between w a b :
  0 < w -> 0 <= a -> 0 < b <= 2 ^ 40 ->
  let k := w * a / b in
  ratio_low w k <= Binary64.round_pos (a * Binary64.SCALE) b <= ratio_high w k.
Proof.
  intros Hw Ha Hb k. pose proof SCALE_pos as Hs.
  assert (Hk0 : 0 <= k) by (apply Z.div_pos; nia).
  pose proof (Z.mul_div_le (w * a) b ltac:(lia)) as Hlo. fold k in Hlo.
  pose proof (Z.mul_succ_div_gt (w * a) b ltac:(lia)) as Hhi. fold k in Hhi.
  assert (H40 : 0 < 2 ^ 40) by reflexivity.
  unfold ratio_low, ratio_high. clearbody k.
  set (S := Binary64.SCALE) in *. clearbody S.
  set (P := 2 ^ 40) in *. clearbody P.
  split.
  - apply round_pos_mono; nia.
  - assert (Hwa : w * a * P <= ((k + 1) * P - 1) * b) by nia.
    apply round_pos_mono; nia.
Qed.

(** Rounding does not depend on the fraction's representation. *)
Lemma round_half_even_cancel n d c :
  0 < d -> 0 < c ->
  Binary64.round_half_even (n * c) (d * c) = Binary64.round_half_even n d.
Proof.
  intros Hd Hc. unfold Binary64.round_half_even.
  rewrite Z.div_mul_cancel_r by lia.
  rewrite Z.mul_mod_distr_r by lia.
  set (q := n / d). set (r := n mod d).
  assert (H1 : (2 * (r * c) <? d * c) = (2 * r <? d)).
  { destruct (Z.ltb_spec (2 * r) d); destruct (Z.ltb_spec (2 * (r * c)) (d * c));
      try reflexivity; nia. }
  assert (H2 : (d * c <? 2 * (r * c)) = (d <? 2 * r)).
  { destruct (Z.ltb_spec d (2 * r)); destruct (Z.ltb_spec (d * c) (2 * (r * c)));
      try reflexivity; nia. }
  rewrite H1, H2. reflexivity.
Qed.

Lemma round_pos_cancel n d c :
  0 < d -> 0 < c ->
  Binary64.round_pos (n * c) (d * c) = Binary64.round_pos n d.
Proof.
  intros Hd Hc. unfold Binary64.round_pos, Binary64.ulp_exp.
  rewrite Z.div_mul_cancel_r by lia.
  set (e := Z.max (Z.log2 (n / d) - 52) 0).
  assert (Hpe : 0 < 2 ^ e) by (apply Z.pow_pos_nonneg; lia).
  replace (d * c * 2 ^ e) with (d * 2 ^ e * c) by ring.
  rewrite round_half_even_cancel by nia. reflexivity.
Qed.

(** A quotient with 53 bits or more before the point keeps its
    significand when it is scaled by a power of two. *)
Lemma round_pos_shift n d k :
  0 < d -> 0 <= k -> 2 ^ 52 <= n / d ->
  Binary64.round_pos (n * 2 ^ k) d = Binary64.round_pos n d * 2 ^ k.
Proof.
  intros Hd Hk Hnorm.
  assert (Hq : 0 < n / d) by (pose proof (Z.pow_pos_nonneg 2 52); lia).
  destruct (Z.log2_spec _ Hq) as [Hlo Hhi].
  set (L := Z.log2 (n / d)) in *.
  assert (HL : 52 <= L) by (apply Z.log2_le_pow2; [exact Hq|exact Hnorm]).
  assert (Hpk : 0 < 2 ^ k) by (apply Z.pow_pos_nonneg; lia).
  assert (HpL : 0 < 2 ^ L) by (apply Z.pow_pos_nonneg; lia).
  pose proof (Z.mul_div_le n d Hd) as Hn1.
  pose proof (Z.mul_succ_div_gt n d Hd) as Hn2.
  assert (Hd1 : d * 2 ^ L <= n) by nia.
  assert (Hd2 : n < d * 2 ^ Z.succ L) by nia.
  assert (Hlog : Z.log2 (n * 2 ^ k / d) = L + k).
  { apply Z.log2_unique; [lia|].
    rewrite Z.pow_add_r by lia. split.
    - apply Z.div_le_lower_bound; [exact Hd|]. nia.
    - apply Z.div_lt_upper_bound; [exact Hd|].
      replace (Z.succ (L + k)) with (Z.succ L + k) by lia.
      rewrite Z.pow_add_r by lia.
      set (U := 2 ^ Z.succ L) in *. clearbody U. nia. }
  unfold Binary64.round_pos, Binary64.ulp_exp. rewrite Hlog. fold L.
  rewrite !Z.max_l by lia.
  replace (L + k - 52) with (L - 52 + k) by lia.
  rewrite Z.pow_add_r by lia.
  replace (d * (2 ^ (L - 52) * 2 ^ k)) with (d * 2 ^ (L - 52) * 2 ^ k) by ring.
  assert (0 < 2 ^ (L - 52)) by (apply Z.pow_pos_nonneg; lia).
  rewrite round_half_even_cancel by nia. apply Z.mul_assoc.
Qed.

Lemma SCALE_FINE : Binary64.SCALE = FINE * 2 ^ 1010.
Proof. reflexivity. Qed.

Lemma round_pos_zero d : 0 < d -> Binary64.round_pos 0 d = 0.
Proof.
  intros Hd. unfold Binary64.round_pos, Binary64.ulp_exp, Binary64.round_half_even.
  rewrite Z.div_0_l by lia. change (Z.max (Z.log2 0 - 52) 0) with 0.
  rewrite Z.pow_0_r, !Z.mul_1_r.
  rewrite Z.div_0_l, Z.mod_0_l by lia.
  destruct (Z.ltb_spec (2 * 0) d); [reflexivity|lia].
Qed.

Lemma round_pos_fine n d :
  0 < d -> is_normal_fine (n * FINE) d = true ->
  Binary64.round_pos (n * Binary64.SCALE) d
  = Binary64.round_pos (n * FINE) d * 2 ^ 1010.
Proof.
  intros Hd Hnorm. rewrite SCALE_FINE, Z.mul_assoc.
  apply orb_prop in Hnorm as [Hz|Hn].
  - apply Z.eqb_eq in Hz. rewrite Hz, Z.mul_0_l.
    rewrite !round_pos_zero by exact Hd. reflexivity.
  - apply Z.leb_le in Hn. apply round_pos_shift; [exact Hd|lia|exact Hn].
Qed.

Lemma cells_fine_spec w x :
  0 < w -> 0 <= x -> is_normal_fine (x * w) 1 = true ->
  cells w (x * 2 ^ 1010) = cells_fine w x.
Proof.
  intros Hw Hx Hnorm. unfold cells, cells_fine.
  pose proof SCALE_pos as Hs.
  assert (HK : 0 < 2 ^ 1010) by reflexivity.
  assert (HF : 0 < FINE) by reflexivity.
  replace (x * 2 ^ 1010 * (w * Binary64.SCALE))
    with (x * w * 2 ^ 1010 * Binary64.SCALE) by ring.
  rewrite <- (Z.mul_1_l Binary64.SCALE) at 2.
  rewrite round_pos_cancel by lia.
  assert (Hr : Binary64.round_pos (x * w * 2 ^ 1010) 1
               = Binary64.round_pos (x * w) 1 * 2 ^ 1010).
  { apply orb_prop in Hnorm as [Hz|Hn].
    - apply Z.eqb_eq in Hz. rewrite Hz, Z.mul_0_l.
      rewrite !round_pos_zero by lia. reflexivity.
    - apply Z.leb_le in Hn. apply round_pos_shift; [lia|lia|exact Hn]. }
  rewrite Hr.
  assert (H0 : 0 <= Binary64.round_pos (x * w) 1)
    by (apply round_pos_nonneg; nia).
  rewrite Z.quot_div_nonneg; [|set (K := 2 ^ 1010) in *; clearbody K; nia|lia].
  rewrite SCALE_FINE. apply Z.div_mul_cancel_r; lia.
Qed.

Lemma tenths_ok : all_below 10 tenth_ok = true.
Proof. vm_compute. reflexivity. Qed.

Lemma hundredths_ok : all_below 100 hundredth_ok = true.
Proof. vm_compute. reflexivity. Qed.

Lemma ratio_low_fine_spec w k :
  0 < w -> is_normal_fine (k * FINE) w = true ->
  ratio_low w k = ratio_low_fine w k * 2 ^ 1010.
Proof. intros Hw Hn. apply round_pos_fine; assumption. Qed.

Lemma ratio_high_fine_spec w k :
  0 < w -> is_normal_fine (((k + 1) * 2 ^ 40 - 1) * FINE) (w * 2 ^ 40) = true ->
  ratio_high w k = ratio_high_fine w k * 2 ^ 1010.
Proof.
  intros Hw Hn. apply round_pos_fine; [|exact Hn].
  assert (0 < 2 ^ 40) by reflexivity. nia.
Qed.

(** Between the two bounds of tenth [k], ten times the ratio truncates to
    [k]. *)
Lemma tenths_checked k :
  0 <= k < 10 ->
  cells 10 (ratio_low 10 k) = k /\ cells 10 (ratio_high 10 k) = k
  /\ ratio_high 10 k < Binary64.SCALE.
Proof.
  intros Hk. pose proof (all_below_spec _ _ tenths_ok k Hk) as H.
  unfold tenth_ok in H.
  repeat (let X := fresh "T" in apply andb_prop in H as [H X]).
  rename H into T5.
  assert (W : 0 < 10) by reflexivity.
  rewrite (ratio_low_fine_spec 10 k W T5), (ratio_high_fine_spec 10 k W T4).
  assert (Hlo0 : 0 <= ratio_low_fine 10 k).
  { apply round_pos_nonneg; [|lia]. apply Z.mul_nonneg_nonneg; [lia|]. discriminate. }
  assert (Hhi0 : 0 <= ratio_high_fine 10 k).
  { apply round_pos_nonneg; [|reflexivity].
    apply Z.mul_nonneg_nonneg; [|discriminate].
    assert (1 <= 2 ^ 40) by discriminate. nia. }
  rewrite !cells_fine_spec by assumption.
  apply Z.eqb_eq in T1, T0. apply Z.ltb_lt in T.
  split; [exact T1|]. split; [exact T0|].
  rewrite SCALE_FINE. apply Z.mul_lt_mono_pos_r; [reflexivity|exact T].
Qed.

(** Between the two bounds of hundredth [k], a hundred times the ratio
    truncates to [k] or to [k - 1]. *)
Lemma hundredths_checked k :
  0 <= k < 100 ->
  k - 1 <= cells 100 (ratio_low 100 k) /\ cells 100 (ratio_high 100 k) = k.
Proof.
  intros Hk. pose proof (all_below_spec _ _ hundredths_ok k Hk) as H.
  unfold hundredth_ok in H.
  repeat (let X := fresh "T" in apply andb_prop in H as [H X]).
  rename H into T4.
  assert (W : 0 < 100) by reflexivity.
  rewrite (ratio_low_fine_spec 100 k W T4), (ratio_high_fine_spec 100 k W T3).
  assert (Hlo0 : 0 <= ratio_low_fine 100 k).
  { apply round_pos_nonneg; [|lia]. apply Z.mul_nonneg_nonneg; [lia|]. discriminate. }
  assert (Hhi0 : 0 <= ratio_high_fine 100 k).
  { apply round_pos_nonneg; [|reflexivity].
    apply Z.mul_nonneg_nonneg; [|discriminate].
    assert (1 <= 2 ^ 40) by discriminate. nia. }
  rewrite !cells_fine_spec by assumption.
  apply Z.eqb_eq in T. apply Z.leb_le in T0.
  split; [exact T0|exact T].
Qed.

Lemma float_of_int_10 : Binary64.float_of_int 10 = Ok (10 * Binary64.SCALE).
Proof. vm_compute. reflexivity. Qed.

Lemma float_of_int_100 : Binary64.float_of_int 100 = Ok (100 * Binary64.SCALE).
Proof. vm_compute. reflexivity. Qed.

Lemma cells_of_one :
  cells 10 Binary64.ONE = 10 /\ cells 100 Binary64.ONE = 100
  /\ Binary64.round_pos (Binary64.ONE * (10 * Binary64.SCALE)) Binary64.SCALE
     < Binary64.OVERFLOW
  /\ Binary64.round_pos (Binary64.ONE * (100 * Binary64.SCALE)) Binary64.SCALE
     < Binary64.OVERFLOW
  /\ Binary64.round_pos (1 * Binary64.SCALE) 1 = Binary64.ONE
  /\ Binary64.round_pos (2 ^ 1000 * Binary64.SCALE) 1 < Binary64.OVERFLOW.
Proof.
  split; [vm_compute; reflexivity|]. split; [vm_compute; reflexivity|].
  split; [vm_compute; reflexivity|]. split; [vm_compute; reflexivity|].
  split; vm_compute; reflexivity.
Qed.

Lemma is_finite_nonneg x :
  0 <= x -> x < Binary64.OVERFLOW -> Binary64.is_finite x = true.
Proof.
  intros H0 Hlt. unfold Binary64.is_finite. rewrite Z.abs_eq by exact H0.
  destruct (Z.ltb_spec x Binary64.OVERFLOW); [reflexivity|lia].
Qed.

(** [int(ratio * w)] as the source computes it, for [0 <= ratio <= 1.0]. *)
Lemma int_of_scaled w ratio :
  0 < w ->
  Binary64.round_pos (Binary64.ONE * (w * Binary64.SCALE)) Binary64.SCALE
    < Binary64.OVERFLOW ->
  0 <= ratio <= Binary64.ONE ->
  Binary64.int_of_float (Binary64.fmul ratio (w * Binary64.SCALE))
  = Ok (cells w ratio).
Proof.
  intros Hw Hfin [H0 H1]. unfold Binary64.int_of_float, Binary64.fmul, cells.
  pose proof SCALE_pos as Hs.
  unfold Binary64.ONE in *.
  set (S := Binary64.SCALE) in *. 
  assert (HwS : 0 < w * S) by (clearbody S; nia).
  rewrite round_units_nonneg by (clearbody S; nia).
  rewrite is_finite_nonneg; [reflexivity| |].
  - apply round_pos_nonneg; [clearbody S; nia|exact Hs].
  - eapply Z.le_lt_trans; [|exact Hfin].
    apply round_pos_mono; clearbody S; nia.
Qed.

Lemma bar_of_ratio a b :
  0 <= a < 2 ^ 1000 -> 0 < b ->
  let q := Binary64.round_pos (a * Binary64.SCALE) b in
  let ratio := Binary64.fmin q Binary64.ONE in
  0 <= ratio <= Binary64.ONE
  /\ Progress.make_progress_bar a b 10
     = Ok (bar (cells 10 ratio) (cells 100 ratio)).
Proof.
  intros Ha Hb q ratio. pose proof SCALE_pos as Hs.
  destruct cells_of_one as (_ & _ & F10 & F100 & _ & Fbig).
  assert (HaS : 0 <= a * Binary64.SCALE) by (apply Z.mul_nonneg_nonneg; lia).
  assert (Hq0 : 0 <= q) by (apply round_pos_nonneg; lia).
  assert (Hqfin : q < Binary64.OVERFLOW).
  { eapply Z.le_lt_trans; [|exact Fbig].
    apply round_pos_mono; try lia.
    rewrite Z.mul_1_r.
    assert (H1 : a * Binary64.SCALE <= 2 ^ 1000 * Binary64.SCALE)
      by (apply Z.mul_le_mono_nonneg_r; lia).
    assert (H2 : 0 <= 2 ^ 1000 * Binary64.SCALE) by lia.
    set (P := 2 ^ 1000 * Binary64.SCALE) in *. clearbody P. nia. }
  assert (Hratio : 0 <= ratio <= Binary64.ONE).
  { unfold ratio, Binary64.fmin, Binary64.ONE.
    destruct (Z.ltb_spec Binary64.SCALE q); lia. }
  split; [exact Hratio|].
  unfold Progress.make_progress_bar.
  destruct (Z.leb_spec b 0) as [|_]; [lia|].
  unfold Binary64.true_divide.
  destruct (Z.eqb_spec b 0) as [|_]; [lia|].
  destruct (Z.ltb_spec b 0) as [|_]; [lia|].
  rewrite round_units_nonneg by exact HaS.
  fold q. rewrite (is_finite_nonneg q Hq0 Hqfin).
  cbn [mbind result_bind]. fold ratio.
  rewrite float_of_int_10. cbn [mbind result_bind].
  rewrite (int_of_scaled 10 ratio ltac:(lia) F10 Hratio).
  cbn [mbind result_bind].
  rewrite float_of_int_100. cbn [mbind result_bind].
  rewrite (int_of_scaled 100 ratio ltac:(lia) F100 Hratio).
  reflexivity.
Qed.

(** The number of filled cells and the label, for a target that is
    positive and at most 2^40. *)
Lemma cells_of_quotient a b :
  0 <= a < 2 ^ 1000 -> 0 < b <= 2 ^ 40 ->
  let ratio :=
    Binary64.fmin (Binary64.round_pos (a * Binary64.SCALE) b) Binary64.ONE in
  cells 10 ratio = 10 * Z.min a b / b
  /\ 100 * Z.min a b / b - 1 <= cells 100 ratio <= 100 * Z.min a b / b.
Proof.
  intros Ha Hb ratio. pose proof SCALE_pos as Hs.
  destruct cells_of_one as (C10 & C100 & _ & _ & Hone & _).
  set (q := Binary64.round_pos (a * Binary64.SCALE) b) in *.
  destruct (Z.le_gt_cases b a) as [Hba|Hab].
  - (* the quotient is at least 1.0, so the ratio is 1.0 *)
    assert (Hq : Binary64.ONE <= q).
    { rewrite <- Hone. apply round_pos_mono; try lia.
      rewrite Z.mul_1_r, Z.mul_1_l. rewrite (Z.mul_comm a).
      apply Z.mul_le_mono_nonneg_l; lia. }
    assert (Hr : ratio = Binary64.ONE).
    { unfold ratio, Binary64.fmin. destruct (Z.ltb_spec Binary64.ONE q); lia. }
    rewrite Hr, C10, C100, Z.min_r by lia.
    rewrite !Z.div_mul by lia. lia.
  - rewrite Z.min_l by lia.
    assert (Hk : 0 <= 10 * a / b < 10).
    { split; [apply Z.div_pos; lia|apply Z.div_lt_upper_bound; lia]. }
    assert (Hj : 0 <= 100 * a / b < 100).
    { split; [apply Z.div_pos; lia|apply Z.div_lt_upper_bound; lia]. }
    destruct (tenths_checked _ Hk) as (Tlo & Thi & Tone).
    destruct (hundredths_checked _ Hj) as (Plo & Phi).
    destruct (quotient_between 10 a b ltac:(lia) ltac:(lia) Hb) as [Q10l Q10h].
    destruct (quotient_between 100 a b ltac:(lia) ltac:(lia) Hb) as [Q100l Q100h].
    fold q in Q10l, Q10h, Q100l, Q100h.
    assert (Hr : ratio = q).
    { unfold ratio, Binary64.fmin, Binary64.ONE.
      destruct (Z.ltb_spec Binary64.SCALE q); lia. }
    rewrite Hr.
    assert (L10 : 0 <= ratio_low 10 (10 * a / b)).
    { apply round_pos_nonneg; [|lia]. apply Z.mul_nonneg_nonneg; lia. }
    assert (L100 : 0 <= ratio_low 100 (100 * a / b)).
    { apply round_pos_nonneg; [|lia]. apply Z.mul_nonneg_nonneg; lia. }
    assert (Hq0 : 0 <= q) by lia.
    assert (W10 : 0 < 10) by reflexivity.
    assert (W100 : 0 < 100) by reflexivity.
    pose proof (cells_mono 10 _ _ W10 L10 Q10l).
    pose proof (cells_mono 10 _ _ W10 Hq0 Q10h).
    pose proof (cells_mono 100 _ _ W100 L100 Q100l).
    pose proof (cells_mono 100 _ _ W100 Hq0 Q100h).
    lia.
Qed.

(** C6, as the code has it. For a target of zero or less the bar is ten
    empty cells labelled 0%. For a target from 1 to 2^40 and a current
    value from 0 up to 2^1000, the bar has ten cells of which
    [floor (10 * min(current, target) / target)] are filled: the product
    is truncated, not rounded; the label is the truncated product with 100,
    which is the floor of the exact percentage or one less. So
    [(5, 8)] gives 6 filled, 4 empty and 62%, [(8, 8)] gives 10 filled and
    100%, and [(3, 4)] gives 7 filled, not 8. *)
Theorem make_progress_bar_truncates (current target : Z) :
  (target <= 0 ->
     Progress.make_progress_bar current target 10
     = Ok (Progress.str_mul Progress.EMPTY 10 +:+ " 0%"))
  /\ (0 <= current < 2 ^ 1000 -> 0 < target <= 2 ^ 40 ->
      exists filled percentage,
        Progress.make_progress_bar current target 10
        = Ok (Progress.str_mul Progress.FULL filled
              +:+ Progress.str_mul Progress.EMPTY (10 - filled)
              +:+ " " +:+ pretty percentage +:+ "%")
        /\ filled = 10 * Z.min current target / target
        /\ 100 * Z.min current target / target - 1 <= percentage
           <= 100 * Z.min current target / target)
  /\ Progress.make_progress_bar 5 8 10 = Ok "██████░░░░ 62%"
  /\ Progress.make_progress_bar 8 8 10 = Ok "██████████ 100%"
  /\ Progress.make_progress_bar 3 4 10 = Ok "███████░░░ 75%".
Proof.
  split.
  { intros Ht. unfold Progress.make_progress_bar.
    destruct (Z.leb_spec target 0); [reflexivity|lia]. }
  split.
  { intros Hc Ht.
    destruct (bar_of_ratio current target Hc ltac:(lia)) as [_ Hbar].
    destruct (cells_of_quotient current target Hc Ht) as [Hfilled Hpct].
    cbv zeta in Hbar, Hfilled, Hpct.
    eexists _, _. split; [exact Hbar|]. split; [exact Hfilled|exact Hpct]. }
  split; [vm_compute; reflexivity|].
  split; vm_compute; reflexivity.
Qed.

Lemma make_progress_bar_truncates_witness :
  exists filled percentage,
    Progress.make_progress_bar 29 100 10
    = Ok (Progress.str_mul Progress.FULL filled
          +:+ Progress.str_mul Progress.EMPTY (10 - filled)
          +:+ " " +:+ pretty percentage +:+ "%")
    /\ filled = 2
    /\ 28 <= percentage <= 29.
Proof.
  destruct (make_progress_bar_truncates 29 100) as (_ & Hbar & _).
  destruct Hbar as (filled & percentage & Hrun & Hfilled & Hpct).
  - split; [lia|reflexivity].
  - split; [lia|discriminate].
  - exists filled, percentage. split; [exact Hrun|].
    change (10 * Z.min 29 100 / 100) with 2 in Hfilled.
    change (100 * Z.min 29 100 / 100) with 29 in Hpct.
    split; [exact Hfilled|lia].
Defined.

Example bar_29_of_100 :
  Progress.make_progress_bar 29 100 10 = Ok "██░░░░░░░░ 28%".
Proof. vm_compute. reflexivity. Qed.

Example bar_negative_current :
  Progress.make_progress_bar (-3) 4 10 = Ok "░░░░░░░░░░░░░░░░░ -75%".
Proof. vm_compute. reflexivity. Qed.

Example bar_overflow :
  Progress.make_progress_bar (2 ^ 1024) 1 10 = Raise OverflowError.
Proof. vm_compute. reflexivity. Qed.

(** Beyond the bound on the target the quotient may round up to the next
    tenth: 2^59 - 1 of 2^60 is below one half, and five cells are filled. *)
Example bar_large_target :
  Progress.make_progress_bar (2 ^ 59 - 1) (2 ^ 60) 10 = Ok "█████░░░░░ 50%"
  /\ 10 * Z.min (2 ^ 59 - 1) (2 ^ 60) / 2 ^ 60 = 4.
Proof. split; vm_compute; reflexivity. Qed.

(** C6, refuted as stated: for 3 of 4 the product is 7.5, whose rounding
    is 8, and the bar has 7 filled cells; and for a current value whose
    quotient by the target is beyond the floats no bar is rendered. *)
Lemma make_progress_bar_not_rounded :
  Binary64.round_half_even (10 * 3) 4 = 8
  /\ Progress.make_progress_bar 3 4 10
     = Ok (Progress.str_mul Progress.FULL 7
           +:+ Progress.str_mul Progress.EMPTY 3 +:+ " 75%")
  /\ Progress.make_progress_bar 3 4 10
     <> Ok (Progress.str_mul Progress.FULL (Binary64.round_half_even (10 * 3) 4)
            +:+ Progress.str_mul Progress.EMPTY
                  (10 - Binary64.round_half_even (10 * 3) 4)
            +:+ " 75%")
  /\ Progress.make_progress_bar (2 ^ 1024) 1 10 = Raise OverflowError.
Proof.
  split; [reflexivity|]. split; [vm_compute; reflexivity|].
  split; [vm_compute; discriminate|].
  vm_compute. reflexivity.
Qed.

(** * Further properties *)

(** ** Ledger: urls, totals and windows *)

Lemma is_known_url_In url db :
  Db.is_known_url url db = true <-> In url (urls db).
Proof.
  unfold Db.is_known_url, urls. rewrite existsb_exists, in_map_iff.
  split.
  - intros (r & Hin & Heq). apply String.eqb_eq in Heq. exists r. auto.
  - intros (r & Heq & Hin). exists r. split; [exact Hin|].
    apply String.eqb_eq. exact Heq.
Qed.

Lemma urls_insert_article url title p e now db :
  urls (snd (Db.insert_article url title p e now db))
  = if Db.is_known_url url db then urls db else urls db ++ [url].
Proof.
  unfold urls. destruct (Db.is_known_url url db) eqn:Hk.
  - rewrite insert_article_known by exact Hk. reflexivity.
  - rewrite insert_article_fresh by exact Hk.
    rewrite List.map_app. reflexivity.
Qed.

(** X1. [insert_article] keeps the urls of the [articles] table distinct:
    when no url is on record twice before the call, none is after it,
    whether the url inserted was known or not. *)
Theorem insert_article_keeps_urls_unique url title p e now db :
  NoDup (urls db) ->
  NoDup (urls (snd (Db.insert_article url title p e now db))).
Proof.
  intros Hnd. rewrite urls_insert_article.
  destruct (Db.is_known_url url db) eqn:Hk; [exact Hnd|].
  apply NoDup_app. split; [exact Hnd|]. split.
  - intros x Hx Hin. apply list_elem_of_In in Hx, Hin.
    destruct Hin as [<-|[]].
    apply is_known_url_In in Hx. congruence.
  - apply NoDup_singleton.
Qed.

Lemma insert_article_keeps_urls_unique_witness :
  NoDup (urls (snd (Db.insert_article "https://example.com/a" "A again" None 415
                      (at_noon d_2026_03_02) db_one_article)))
  /\ NoDup (urls (snd (Db.insert_article "https://example.com/b" "B" None 415
                         (at_noon d_2026_03_02) db_one_article))).
Proof.
  assert (Hone : NoDup (urls db_one_article))
    by (change (NoDup ["https://example.com/a"]); apply NoDup_singleton).
  split; apply insert_article_keeps_urls_unique; exact Hone.
Defined.




Lemma filter_length_mono {A} (p q : A -> bool) (l : list A) :
  (forall x, p x = true -> q x = true) ->
  (length (List.filter p l) <= length (List.filter q l))%nat.
Proof.
  intros Hpq. induction l as [|x l IH]; [reflexivity|].
  cbn [List.filter]. destruct (p x) eqn:Hp.
  - rewrite (Hpq x Hp). cbn [length]. lia.
  - destruct (q x); cbn [length]; lia.
Qed.








(** X5. On a consistent ledger the count of today is never negative and
    never above the count of the month: the month's window, from the first
    of the month on, holds today. *)
Theorem today_count_within_month now db :
  ledger_consistent db ->
  1 <= day (dt_date now) ->
  0 <= Db.get_today_count now db <= Db.get_monthly_count now db.
Proof.
  intros Hc Hday.
  destruct (consistent_accessors now db Hc) as (Ht & _ & Hm & _).
  rewrite Ht, Hm. unfold records_count. split; [lia|].
  apply inj_le. apply filter_length_mono.
  intros r Hr. unfold detected_on in Hr. apply bool_decide_eq_true in Hr.
  unfold detected_since. rewrite Hr. apply first_of_month_counted. exact Hday.
Qed.

Lemma today_count_within_month_witness :
  0 <= Db.get_today_count (at_noon d_2026_03_02) db_one_article
    <= Db.get_monthly_count (at_noon d_2026_03_02) db_one_article.
Proof.
  apply today_count_within_month.
  - apply insert_article_fresh_consistent;
      [apply init_db_consistent|reflexivity].
  - vm_compute. discriminate.
Defined.

(** ** Streak engine: missing row, repeated days, runs of days *)

(** X6. When the [streak_info] table has no row with id 1, [get_streak]
    answers (0, None), and [update_streak] returns 1 and stores nothing:
    the UPDATE matches no row, so the streak reads 0 afterwards as before. *)
Theorem update_streak_without_row now db :
  Db.streak_info db = None ->
  Streak.update_streak now db = (Ok 1, db)
  /\ Db.get_streak db = (0, None)
  /\ Db.get_streak (snd (Streak.update_streak now db)) = (0, None).
Proof.
  intros Hnone. unfold Streak.update_streak, Db.get_streak, Db.update_streak.
  rewrite Hnone. destruct db as [arts stats row]. cbn in *. subst row.
  repeat split; reflexivity.
Qed.

Lemma update_streak_without_row_witness :
  Streak.update_streak (at_noon d_2026_03_02) db_without_streak_row
  = (Ok 1, db_without_streak_row).
Proof.
  apply (update_streak_without_row (at_noon d_2026_03_02)
           db_without_streak_row eq_refl).
Defined.

(** X7. A second detection on the same day changes nothing: for a stored
    streak from 0 up to 2147483646 (one below the largest value the
    INTEGER column holds), calling [update_streak] again on the date of the
    call before returns the same streak and leaves the store as that call
    left it; the streak returned is at least 1 and at most one more than
    the stored one. *)
Theorem update_streak_same_day_again now1 now2 db c d :
  0 <= c < 2 ^ 31 - 1 ->
  Db.streak_info db = Some (Db.mkStreak c d) ->
  dt_date now2 = dt_date now1 ->
  let r1 := Streak.update_streak now1 db in
  Streak.update_streak now2 (snd r1) = r1
  /\ exists streak, fst r1 = Ok streak /\ 1 <= streak <= c + 1.
Proof.
  intros Hc Hrow Hsame r1. unfold r1.
  set (s := next_streak (dt_date now1) c d).
  assert (Hbounds : 1 <= s <= c + 1)
    by (apply next_streak_bounds; lia).
  assert (Hfits : Db.fits_integer s = true)
    by (apply fits_integer_spec; lia).
  rewrite (update_streak_accepted now1 db c d Hrow Hfits). fold s.
  cbn [fst snd]. split; [|exists s; split; [reflexivity|exact Hbounds]].
  assert (Hnext : next_streak (dt_date now2) s (Some (dt_date now1)) = s).
  { unfold next_streak. cbv zeta. rewrite Hsame, days_between_same.
    cbn [Z.eqb]. destruct (Z.ltb_spec 0 s); [reflexivity|lia]. }
  rewrite (update_streak_accepted now2
             (Db.mkDb (Db.articles db) (Db.daily_stats db)
                (Some (Db.mkStreak s (Some (dt_date now1)))))
             s (Some (dt_date now1)) eq_refl)
    by (rewrite Hnext; exact Hfits).
  rewrite Hnext, Hsame. reflexivity.
Qed.

Lemma update_streak_same_day_again_witness :
  let r1 := Streak.update_streak (at_noon d_2026_03_01)
              (db_with_streak 5 (Some d_2026_02_28)) in
  Streak.update_streak (mkDatetime d_2026_03_01 80000) (snd r1) = r1
  /\ fst r1 = Ok 6.
Proof.
  destruct (update_streak_same_day_again (at_noon d_2026_03_01)
              (mkDatetime d_2026_03_01 80000)
              (db_with_streak 5 (Some d_2026_02_28)) 5 (Some d_2026_02_28)
              ltac:(lia) eq_refl eq_refl) as [Hagain _].
  cbv zeta. split; [exact Hagain|reflexivity].
Defined.

Lemma list_last_cons {A} (a d : A) (l : list A) :
  List.last (a :: l) d = List.last l a.
Proof.
  revert a d. induction l as [|b l IH]; intros a d; [reflexivity|].
  change (List.last (a :: b :: l) d) with (List.last (b :: l) d).
  rewrite (IH b d), (IH b a). reflexivity.
Qed.

Lemma detect_days_chain rest : forall db c previous,
  0 <= c -> c + Z.of_nat (length rest) < 2 ^ 31 ->
  Db.streak_info db = Some (Db.mkStreak c (Some previous)) ->
  one_day_apart previous rest ->
  Db.get_streak (detect_days rest db)
  = (c + Z.of_nat (length rest), Some (last_day previous rest)).
Proof.
  induction rest as [|now rest IH]; intros db c previous Hc Hmax Hrow Hchain.
  - cbn. unfold Db.get_streak. rewrite Hrow. cbn. f_equal. lia.
  - destruct Hchain as [Hgap Hrest]. cbn [length] in Hmax.
    cbn [detect_days fold_left].
    fold (detect_days rest (snd (Streak.update_streak now db))).
    pose proof (next_streak_next_day (dt_date now) c (Some previous) previous
                  eq_refl Hgap) as Hs.
    assert (Hfits : Db.fits_integer
                      (next_streak (dt_date now) c (Some previous)) = true)
      by (rewrite Hs; apply fits_integer_spec; lia).
    destruct (update_streak_writes_back now db c (Some previous) Hrow Hfits)
      as (_ & Hrow' & _).
    rewrite Hs in Hrow'.
    rewrite (IH _ (c + 1) (dt_date now) ltac:(lia) ltac:(lia) Hrow' Hrest).
    unfold last_day. cbn [length List.map]. rewrite list_last_cons.
    f_equal. lia.
Qed.

(** X8. Detections on consecutive days add up, as long as the INTEGER
    column holds the streak: after a first detection and then one on each
    of the [n] days that follow, day after day, with the stored streak [c]
    from 0 up and [c + 1 + n] below 2^31, the stored streak is the one the
    first call returned plus [n], and the stored date is the last day;
    from a store that never saw a publication it is [1 + n]. *)
Theorem streak_counts_consecutive_days first rest db c d :
  0 <= c -> c + 1 + Z.of_nat (length rest) < 2 ^ 31 ->
  Db.streak_info db = Some (Db.mkStreak c d) ->
  one_day_apart (dt_date first) rest ->
  exists streak,
    fst (Streak.update_streak first db) = Ok streak
    /\ Db.get_streak (detect_days (first :: rest) db)
       = (streak + Z.of_nat (length rest), Some (last_day (dt_date first) rest))
    /\ (d = None -> streak = 1).
Proof.
  intros Hc Hmax Hrow Hchain.
  set (s := next_streak (dt_date first) c d).
  assert (Hbounds : 1 <= s <= c + 1) by (apply next_streak_bounds; lia).
  assert (Hfits : Db.fits_integer s = true) by (apply fits_integer_spec; lia).
  destruct (update_streak_writes_back first db c d Hrow Hfits)
    as (Hret & Hrow' & _).
  exists s. split; [exact Hret|]. split.
  - cbn [detect_days fold_left].
    fold (detect_days rest (snd (Streak.update_streak first db))).
    exact (detect_days_chain rest _ s (dt_date first) ltac:(lia) ltac:(lia)
             Hrow' Hchain).
  - intros Hd. exact (next_streak_first (dt_date first) c d Hd).
Qed.

Lemma streak_counts_consecutive_days_witness :
  Db.get_streak
    (detect_days [at_noon d_2026_02_28; at_noon d_2026_03_01; at_noon d_2026_03_02]
       Db.init_db)
  = (3, Some d_2026_03_02).
Proof.
  destruct (streak_counts_consecutive_days (at_noon d_2026_02_28)
              [at_noon d_2026_03_01; at_noon d_2026_03_02] Db.init_db 0 None
              ltac:(lia) ltac:(cbn; lia) eq_refl) as (streak & _ & Hrun & Hfirst).
  - cbn. split; [reflexivity|]. split; reflexivity.
  - rewrite Hrun, (Hfirst eq_refl). reflexivity.
Defined.

(** ** Progress bar: range, monotonicity, the goal, the dashboard *)

Lemma cells_zero w : cells w 0 = 0.
Proof.
  unfold cells. rewrite Z.mul_0_l.
  rewrite round_pos_zero by exact SCALE_pos. reflexivity.
Qed.

Lemma cells_in_range w ratio :
  0 < w -> 0 <= ratio <= Binary64.ONE ->
  0 <= cells w ratio <= cells w Binary64.ONE.
Proof.
  intros Hw [H0 H1]. split.
  - rewrite <- (cells_zero w). apply cells_mono; lia.
  - apply cells_mono; lia.
Qed.

Lemma bar_ratio_mono a1 a2 b :
  0 <= a1 -> a1 <= a2 -> 0 < b -> bar_ratio a1 b <= bar_ratio a2 b.
Proof.
  intros H0 H12 Hb. unfold bar_ratio, Binary64.fmin.
  pose proof SCALE_pos as Hs.
  assert (Hq : Binary64.round_pos (a1 * Binary64.SCALE) b
               <= Binary64.round_pos (a2 * Binary64.SCALE) b).
  { apply round_pos_mono; [|lia|lia|].
    - apply Z.mul_nonneg_nonneg; lia.
    - apply Z.mul_le_mono_nonneg_r; [lia|].
      apply Z.mul_le_mono_nonneg_r; lia. }
  destruct (Z.ltb_spec Binary64.ONE (Binary64.round_pos (a1 * Binary64.SCALE) b));
    destruct (Z.ltb_spec Binary64.ONE (Binary64.round_pos (a2 * Binary64.SCALE) b));
    lia.
Qed.

(** X9. For a count from 0 up and a positive target the bar is well formed:
    [make_progress_bar] does not raise, between 0 and 10 of its 10 cells
    are filled, the rest are empty, and the percentage shown lies between 0
    and 100, however far the count is above the target. *)
Theorem make_progress_bar_in_range current target :
  0 <= current < 2 ^ 1000 -> 0 < target ->
  exists filled percentage,
    Progress.make_progress_bar current target 10
    = Ok (Progress.str_mul Progress.FULL filled
          +:+ Progress.str_mul Progress.EMPTY (10 - filled)
          +:+ " " +:+ pretty percentage +:+ "%")
    /\ 0 <= filled <= 10
    /\ 0 <= percentage <= 100.
Proof.
  intros Hc Ht.
  destruct (bar_of_ratio current target Hc Ht) as [Hratio Hbar].
  cbv zeta in Hratio, Hbar.
  destruct cells_of_one as (C10 & C100 & _).
  pose proof (cells_in_range 10 _ ltac:(lia) Hratio) as H10.
  pose proof (cells_in_range 100 _ ltac:(lia) Hratio) as H100.
  rewrite C10 in H10. rewrite C100 in H100.
  eexists _, _. split; [exact Hbar|]. split; assumption.
Qed.

Lemma make_progress_bar_in_range_witness :
  exists filled percentage,
    Progress.make_progress_bar 300 8 10
    = Ok (Progress.str_mul Progress.FULL filled
          +:+ Progress.str_mul Progress.EMPTY (10 - filled)
          +:+ " " +:+ pretty percentage +:+ "%")
    /\ 0 <= filled <= 10
    /\ 0 <= percentage <= 100.
Proof.
  apply make_progress_bar_in_range; [split; [lia|reflexivity]|lia].
Defined.

(** X10. The bar never goes back: for one positive target, a larger count
    gives at least as many filled cells and at least as large a
    percentage. *)
Theorem make_progress_bar_monotone current1 current2 target :
  0 <= current1 -> current1 <= current2 -> current2 < 2 ^ 1000 -> 0 < target ->
  exists filled1 percentage1 filled2 percentage2,
    Progress.make_progress_bar current1 target 10
    = Ok (Progress.str_mul Progress.FULL filled1
          +:+ Progress.str_mul Progress.EMPTY (10 - filled1)
          +:+ " " +:+ pretty percentage1 +:+ "%")
    /\ Progress.make_progress_bar current2 target 10
    = Ok (Progress.str_mul Progress.FULL filled2
          +:+ Progress.str_mul Progress.EMPTY (10 - filled2)
          +:+ " " +:+ pretty percentage2 +:+ "%")
    /\ 0 <= filled1 <= filled2 /\ filled2 <= 10
    /\ 0 <= percentage1 <= percentage2 /\ percentage2 <= 100.
Proof.
  intros H0 H12 H2 Ht.
  destruct (bar_of_ratio current1 target ltac:(lia) Ht) as [Hr1 Hbar1].
  destruct (bar_of_ratio current2 target ltac:(lia) Ht) as [Hr2 Hbar2].
  cbv zeta in Hr1, Hbar1, Hr2, Hbar2.
  pose proof (bar_ratio_mono current1 current2 target H0 H12 Ht) as Hmono.
  unfold bar_ratio in Hmono.
  destruct cells_of_one as (C10 & C100 & _).
  pose proof (cells_in_range 10 _ ltac:(lia) Hr1) as A10.
  pose proof (cells_in_range 100 _ ltac:(lia) Hr1) as A100.
  pose proof (cells_in_range 10 _ ltac:(lia) Hr2) as B10.
  pose proof (cells_in_range 100 _ ltac:(lia) Hr2) as B100.
  pose proof (cells_mono 10 _ _ ltac:(lia) (proj1 Hr1) Hmono) as M10.
  pose proof (cells_mono 100 _ _ ltac:(lia) (proj1 Hr1) Hmono) as M100.
  rewrite C10 in A10, B10. rewrite C100 in A100, B100.
  eexists _, _, _, _. split; [exact Hbar1|]. split; [exact Hbar2|]. lia.
Qed.

Lemma make_progress_bar_monotone_witness :
  exists filled1 percentage1 filled2 percentage2,
    Progress.make_progress_bar 3 8 10
    = Ok (Progress.str_mul Progress.FULL filled1
          +:+ Progress.str_mul Progress.EMPTY (10 - filled1)
          +:+ " " +:+ pretty percentage1 +:+ "%")
    /\ Progress.make_progress_bar 5 8 10
    = Ok (Progress.str_mul Progress.FULL filled2
          +:+ Progress.str_mul Progress.EMPTY (10 - filled2)
          +:+ " " +:+ pretty percentage2 +:+ "%")
    /\ 0 <= filled1 <= filled2 /\ filled2 <= 10
    /\ 0 <= percentage1 <= percentage2 /\ percentage2 <= 100.
Proof.
  apply make_progress_bar_monotone; [lia|lia|reflexivity|lia].
Defined.

Lemma ratio_of_reached a b :
  0 < b -> b <= a ->
  Binary64.fmin (Binary64.round_pos (a * Binary64.SCALE) b) Binary64.ONE
  = Binary64.ONE.
Proof.
  intros Hb Hba. pose proof SCALE_pos as Hs.
  destruct cells_of_one as (_ & _ & _ & _ & Hone & _).
  assert (Hq : Binary64.ONE <= Binary64.round_pos (a * Binary64.SCALE) b).
  { rewrite <- Hone. apply round_pos_mono; try lia.
    rewrite Z.mul_1_r, Z.mul_1_l. rewrite (Z.mul_comm a).
    apply Z.mul_le_mono_nonneg_l; lia. }
  unfold Binary64.fmin.
  destruct (Z.ltb_spec Binary64.ONE (Binary64.round_pos (a * Binary64.SCALE) b));
    lia.
Qed.

(** X11. The bar, its percentage and the goal line agree on when the goal
    is reached: for a target up to 2^40, all 10 cells are filled exactly
    when the count has reached the target, the percentage is 100 exactly
    then, and [calculate_daily_remaining] is 0 exactly then. *)
Theorem bar_full_when_goal_reached current target :
  0 <= current < 2 ^ 1000 -> 0 < target <= 2 ^ 40 ->
  exists filled percentage,
    Progress.make_progress_bar current target 10
    = Ok (Progress.str_mul Progress.FULL filled
          +:+ Progress.str_mul Progress.EMPTY (10 - filled)
          +:+ " " +:+ pretty percentage +:+ "%")
    /\ (filled = 10 <-> target <= current)
    /\ (percentage = 100 <-> target <= current)
    /\ (Progress.calculate_daily_remaining current target = 0
        <-> target <= current).
Proof.
  intros Hc Ht.
  destruct (bar_of_ratio current target Hc ltac:(lia)) as [_ Hbar].
  destruct (cells_of_quotient current target Hc Ht) as [Hfilled Hpct].
  cbv zeta in Hbar, Hfilled, Hpct.
  eexists _, _. split; [exact Hbar|].
  destruct (Z.le_gt_cases target current) as [Hreached|Hshort].
  - rewrite (ratio_of_reached current target) by lia.
    destruct cells_of_one as (C10 & C100 & _). rewrite C10, C100.
    unfold Progress.calculate_daily_remaining.
    repeat split; intros; lia.
  - rewrite Hfilled. rewrite Z.min_l in * by lia.
    assert (H10 : 10 * current / target < 10)
      by (apply Z.div_lt_upper_bound; lia).
    assert (H100 : 100 * current / target < 100)
      by (apply Z.div_lt_upper_bound; lia).
    unfold Progress.calculate_daily_remaining.
    repeat split; intros; lia.
Qed.

Lemma bar_full_when_goal_reached_witness :
  exists filled percentage,
    Progress.make_progress_bar 7 8 10
    = Ok (Progress.str_mul Progress.FULL filled
          +:+ Progress.str_mul Progress.EMPTY (10 - filled)
          +:+ " " +:+ pretty percentage +:+ "%")
    /\ filled <> 10 /\ percentage <> 100
    /\ Progress.calculate_daily_remaining 7 8 <> 0.
Proof.
  destruct (bar_full_when_goal_reached 7 8) as (f & p & Hrun & Hf & Hp & Hr).
  - split; [lia|reflexivity].
  - split; [lia|discriminate].
  - exists f, p. split; [exact Hrun|].
    split; [|split]; intros H; [apply Hf in H|apply Hp in H|apply Hr in H]; lia.
Defined.

Lemma product_with_hundred_finite :
  Binary64.round_pos (2 ^ 1000 * Binary64.SCALE * (100 * Binary64.SCALE))
    Binary64.SCALE < Binary64.OVERFLOW
  /\ Binary64.round_pos (2 ^ 1000 * Binary64.SCALE) 1 = 2 ^ 1000 * Binary64.SCALE.
Proof. split; vm_compute; reflexivity. Qed.

(** [int(x * 100)] for a float [x] from 0 up to 2^1000. *)
Lemma int_of_hundredfold x :
  0 <= x <= 2 ^ 1000 * Binary64.SCALE ->
  Binary64.int_of_float (Binary64.fmul x (100 * Binary64.SCALE))
  = Ok (cells 100 x).
Proof.
  intros [H0 H1]. unfold Binary64.int_of_float, Binary64.fmul, cells.
  pose proof SCALE_pos as Hs.
  destruct product_with_hundred_finite as [Hfin _].
  assert (HwS : 0 < 100 * Binary64.SCALE) by lia.
  assert (Hx : 0 <= x * (100 * Binary64.SCALE))
    by (apply Z.mul_nonneg_nonneg; lia).
  rewrite round_units_nonneg by exact Hx.
  rewrite is_finite_nonneg; [reflexivity| |].
  - apply round_pos_nonneg; [exact Hx|exact Hs].
  - eapply Z.le_lt_trans; [|exact Hfin].
    apply round_pos_mono; [exact Hx|exact Hs|exact Hs|].
    apply Z.mul_le_mono_nonneg_r; [lia|].
    apply Z.mul_le_mono_nonneg_r; lia.
Qed.

(** X12. The dashboard and the notification show the same figures: for a
    count from 0 up, the percentage the dashboard computes for today, and
    for the month, is the percentage at the end of the bar
    [make_progress_bar] draws for the same count and target, although the
    dashboard caps after truncating and the bar before; and the dashboard's
    [daily_remaining] is [calculate_daily_remaining]. *)
Theorem dashboard_percentage_is_bar_label count target :
  0 <= count < 2 ^ 1000 ->
  exists filled percentage,
    Dashboard.today_pct count target = Ok percentage
    /\ Dashboard.monthly_pct count target = Ok percentage
    /\ Progress.make_progress_bar count target 10
       = Ok (Progress.str_mul Progress.FULL filled
             +:+ Progress.str_mul Progress.EMPTY (10 - filled)
             +:+ " " +:+ pretty percentage +:+ "%")
    /\ Dashboard.daily_remaining count target
       = Progress.calculate_daily_remaining count target.
Proof.
  intros Hc.
  change (Dashboard.monthly_pct count target)
    with (Dashboard.today_pct count target).
  unfold Dashboard.today_pct.
  destruct (Z.ltb_spec 0 target) as [Ht|Ht].
  - destruct (bar_of_ratio count target Hc Ht) as [Hratio Hbar].
    cbv zeta in Hratio, Hbar.
    set (q := Binary64.round_pos (count * Binary64.SCALE) target) in *.
    pose proof SCALE_pos as Hs.
    destruct product_with_hundred_finite as [_ Hbig].
    destruct cells_of_one as (_ & C100 & _ & _ & _ & Fbig).
    assert (HcS : 0 <= count * Binary64.SCALE)
      by (apply Z.mul_nonneg_nonneg; lia).
    assert (Hq0 : 0 <= q) by (apply round_pos_nonneg; lia).
    assert (Hqle : q <= 2 ^ 1000 * Binary64.SCALE).
    { rewrite <- Hbig. apply round_pos_mono; [exact HcS|exact Ht|lia|].
      rewrite Z.mul_1_r.
      assert (H1 : count * Binary64.SCALE <= 2 ^ 1000 * Binary64.SCALE)
        by (apply Z.mul_le_mono_nonneg_r; lia).
      assert (H2 : 0 <= 2 ^ 1000 * Binary64.SCALE) by lia.
      set (P := 2 ^ 1000 * Binary64.SCALE) in *. clearbody P. nia. }
    unfold Binary64.true_divide.
    destruct (Z.eqb_spec target 0) as [|_]; [lia|].
    destruct (Z.ltb_spec target 0) as [|_]; [lia|].
    rewrite round_units_nonneg by exact HcS. fold q.
    rewrite (is_finite_nonneg q Hq0) by lia.
    cbn [mbind result_bind]. rewrite float_of_int_100. cbn [mbind result_bind].
    rewrite (int_of_hundredfold q (conj Hq0 Hqle)). cbn [mbind result_bind].
    exists (cells 10 (Binary64.fmin q Binary64.ONE)),
           (cells 100 (Binary64.fmin q Binary64.ONE)).
    assert (Hpct : Ok (Z.min 100 (cells 100 q))
                   = Ok (cells 100 (Binary64.fmin q Binary64.ONE)) :> result Z).
    { f_equal. unfold Binary64.fmin.
      destruct (Z.ltb_spec Binary64.ONE q) as [Hbig1|Hsmall].
      + pose proof (cells_mono 100 Binary64.ONE q ltac:(lia)
                      ltac:(unfold Binary64.ONE; lia) ltac:(lia)).
        lia.
      + pose proof (cells_mono 100 q Binary64.ONE ltac:(lia) Hq0 Hsmall). lia. }
    split; [exact Hpct|]. split; [exact Hpct|]. split; [exact Hbar|reflexivity].
  - exists 0, 0. split; [reflexivity|]. split; [reflexivity|].
    split; [|reflexivity].
    unfold Progress.make_progress_bar.
    destruct (Z.leb_spec target 0); [reflexivity|lia].
Qed.

Lemma dashboard_percentage_is_bar_label_witness :
  exists filled percentage,
    Dashboard.today_pct 5 8 = Ok percentage
    /\ Dashboard.monthly_pct 5 8 = Ok percentage
    /\ Progress.make_progress_bar 5 8 10
       = Ok (Progress.str_mul Progress.FULL filled
             +:+ Progress.str_mul Progress.EMPTY (10 - filled)
             +:+ " " +:+ pretty percentage +:+ "%")
    /\ Dashboard.daily_remaining 5 8 = Progress.calculate_daily_remaining 5 8.
Proof.
  apply dashboard_percentage_is_bar_label. split; [lia|reflexivity].
Defined.

(** ** Webhook: first delivery, notifications, test mode *)















(** ** Feed: what a parsed article looks like *)

Lemma drop_spaces_skipn width fuel : forall l,
  exists j, Str.drop_spaces width fuel l = skipn j l.
Proof.
  induction fuel as [|fuel IH]; intros l; [exists 0%nat; reflexivity|].
  cbn [Str.drop_spaces]. destruct (width l) as [|n]; [exists 0%nat; reflexivity|].
  destruct (IH (skipn (S n) l)) as [j ->].
  exists (S n + j)%nat. rewrite skipn_skipn. f_equal. lia.
Qed.

(** Once the spaces are dropped, the text begins with none. *)
Lemma drop_spaces_done width :
  width [] = 0%nat ->
  forall fuel l, (length l <= fuel)%nat ->
  width (Str.drop_spaces width fuel l) = 0%nat.
Proof.
  intros Hnil. induction fuel as [|fuel IH]; intros l Hlen.
  - destruct l; [exact Hnil|cbn in Hlen; lia].
  - cbn [Str.drop_spaces]. destruct (width l) as [|n] eqn:Hw; [exact Hw|].
    apply IH. destruct l as [|c l]; [rewrite Hnil in Hw; discriminate|].
    rewrite length_skipn. cbn [length] in *. lia.
Qed.

Lemma lstrip_space_done l : Str.space_width (Str.lstrip_space l) = 0%nat.
Proof. apply drop_spaces_done; [reflexivity|lia]. Qed.

Lemma rstrip_space_done l :
  Str.space_width_end (rev (Str.rstrip_space l)) = 0%nat.
Proof.
  unfold Str.rstrip_space. rewrite rev_involutive.
  apply drop_spaces_done; [reflexivity|]. rewrite length_rev. lia.
Qed.

(** Stripping the end leaves a prefix of the text. *)
Lemma rstrip_space_prefix l :
  exists rest, l = Str.rstrip_space l ++ rest.
Proof.
  unfold Str.rstrip_space.
  destruct (drop_spaces_skipn Str.space_width_end (length (rev l)) (rev l))
    as [j Hj].
  rewrite length_rev in Hj. rewrite Hj, skipn_rev, rev_involutive.
  exists (skipn (length l - j) l). symmetry. apply firstn_skipn.
Qed.

(** A text that begins with no white space has no prefix that does. *)
Lemma space_width_prefix p q :
  Str.space_width (p ++ q) = 0%nat -> Str.space_width p = 0%nat.
Proof.
  destruct p as [|c1 [|c2 [|c3 p]]]; [reflexivity| | |].
  - destruct q as [|c2 [|c3 q]]; cbn [app Str.space_width];
      destruct (Str.is_space c1); try discriminate; reflexivity.
  - destruct q as [|c3 q]; cbn [app Str.space_width];
      destruct (Str.is_space c1); try discriminate;
      destruct (Str.is_space2 c1 c2); try discriminate; reflexivity.
  - cbn [app Str.space_width]. intros H. exact H.
Qed.

Lemma strip_no_space_at_ends s :
  begins_with_space (Str.strip s) = false
  /\ ends_with_space (Str.strip s) = false.
Proof.
  unfold begins_with_space, ends_with_space, Str.strip.
  rewrite list_ascii_of_string_of_list_ascii.
  set (l := Str.lstrip_space (list_ascii_of_string s)).
  split.
  - destruct (rstrip_space_prefix l) as [rest Hrest].
    pose proof (lstrip_space_done (list_ascii_of_string s)) as Hl.
    fold l in Hl. rewrite Hrest in Hl.
    rewrite (space_width_prefix _ _ Hl). reflexivity.
  - rewrite rstrip_space_done. reflexivity.
Qed.

Lemma is_empty_false s : Str.is_empty s = false <-> s <> "".
Proof. unfold Str.is_empty. apply String.eqb_neq. Qed.

(** X16. Every article [parse_sitemap] appends is clean: its url is not
    empty, neither its url nor its publication date begins or ends with a
    white-space character (ASCII or not: the no-break space U+00A0 and
    the other white space of Unicode count), and every keyword is
    non-empty and free of white space at both ends. *)
Theorem parsed_article_is_clean str_title url_el a :
  Sitemap.parse_url_element str_title url_el = Some a ->
  Sitemap.url a <> ""
  /\ begins_with_space (Sitemap.url a) = false
  /\ ends_with_space (Sitemap.url a) = false
  /\ begins_with_space (Sitemap.publication_date a) = false
  /\ ends_with_space (Sitemap.publication_date a) = false
  /\ Forall (fun k => k <> "" /\ begins_with_space k = false
                      /\ ends_with_space k = false) (Sitemap.keywords a).
Proof.
  unfold Sitemap.parse_url_element. fold (loc_of url_el).
  destruct (Str.is_empty (loc_of url_el)) eqn:Hloc; [discriminate|].
  intros [= <-]. cbn [Sitemap.url Sitemap.publication_date Sitemap.keywords].
  split; [apply is_empty_false, Hloc|].
  split; [apply strip_no_space_at_ends|]. split; [apply strip_no_space_at_ends|].
  split; [apply strip_no_space_at_ends|]. split; [apply strip_no_space_at_ends|].
  destruct (Str.is_empty (Str.strip (default "" (el_keywords url_el))));
    [constructor|].
  apply Forall_forall. intros k Hk.
  apply list_elem_of_filter in Hk as [Hne Hin].
  apply Is_true_true, negb_true_iff, is_empty_false in Hne.
  split; [exact Hne|].
  apply list_elem_of_fmap in Hin as (k0 & -> & _). apply strip_no_space_at_ends.
Qed.

Lemma parsed_article_is_clean_witness :
  Sitemap.parse_url_element Str.title el_padded
  = Some (Sitemap.mkEntry "https://example.com/a-new-post/" "A New Post"
            "2026-03-02" ["news"; "rocq"])
  /\ begins_with_space "https://example.com/a-new-post/" = false
  /\ ends_with_space "https://example.com/a-new-post/" = false.
Proof.
  split; [reflexivity|].
  destruct (parsed_article_is_clean Str.title el_padded _ eq_refl)
    as (_ & Hbegin & Hend & _).
  split; [exact Hbegin|exact Hend].
Defined.

Lemma omap_urls str_title els :
  map Sitemap.url (omap (Sitemap.parse_url_element str_title) els)
  = List.filter (fun l => negb (Str.is_empty l)) (map loc_of els).
Proof.
  induction els as [|el els IH]; [reflexivity|].
  cbn [omap list_omap map List.filter].
  unfold Sitemap.parse_url_element at 1. fold (loc_of el).
  destruct (Str.is_empty (loc_of el)); cbn [negb].
  - exact IH.
  - cbn [map Sitemap.url]. rewrite IH. reflexivity.
Qed.

(** X17. On a document that parses, [parse_sitemap] returns one article for
    each [url] element whose [sm:loc], stripped of the white space at its
    ends (ASCII or not), is not empty, in document order, with the
    stripped text as url, and skips the others: never more articles than
    elements, with a url met twice kept twice; the ledger is not touched. *)
Theorem parse_sitemap_keeps_document_order xml els e w :
  etree_fromstring e xml = Some els ->
  exists articles w',
    Sitemap.parse_sitemap xml e w = (Ok articles, w')
    /\ map Sitemap.url articles
       = List.filter (fun l => negb (Str.is_empty l)) (map loc_of els)
    /\ (length articles <= length els)%nat
    /\ w_db w' = w_db w.
Proof.
  intros Hxml. unfold Sitemap.parse_sitemap. run_io. rewrite Hxml. run_io.
  unfold Sitemap.titlecase. run_io.
  eexists _, _. split; [reflexivity|]. split; [apply omap_urls|].
  split; [|reflexivity].
  rewrite <- (length_map Sitemap.url), omap_urls.
  etransitivity; [apply List.filter_length_le|]. rewrite length_map. reflexivity.
Qed.

Lemma parse_sitemap_keeps_document_order_witness :
  exists articles w',
    Sitemap.parse_sitemap "<urlset/>" env_padded_feed world0 = (Ok articles, w')
    /\ map Sitemap.url articles = ["https://example.com/a"]
    /\ (length articles <= 2)%nat
    /\ w_db w' = w_db world0.
Proof.
  exact (parse_sitemap_keeps_document_order "<urlset/>" _ env_padded_feed world0
           eq_refl).
Defined.

Lemma fetch_failed_cases o :
  fetch_failed o = true
  \/ exists status xml, o = GetResponse status xml /\ is_error_status status = false.
Proof.
  destruct o as [|status xml]; [left; reflexivity|].
  destruct (is_error_status status) eqn:Hs; [left; exact Hs|].
  right. exists status, xml. split; [reflexivity|exact Hs].
Qed.

Lemma parse_sitemap_returns xml e w :
  exists evs,
    Sitemap.parse_sitemap xml e w
    = (Ok (match etree_fromstring e xml with
           | Some url_elements =>
               omap (Sitemap.parse_url_element (Sitemap.titlecase_of e))
                 url_elements
           | None => []
           end),
       after_events evs w).
Proof.
  unfold Sitemap.parse_sitemap. run_io.
  destruct (etree_fromstring e xml) as [els|]; run_io;
    unfold Sitemap.titlecase; run_io; eexists [_]; reflexivity.
Qed.

(** X18. [fetch_and_parse] never raises and makes exactly one GET; it
    returns [None] exactly when the fetch failed (in transport, or with a
    4xx or 5xx status), and a list of articles otherwise, whatever the
    document; neither the ledger nor the webhook is touched. *)
Theorem fetch_and_parse_none_iff_fetch_failed sitemap_url e w :
  exists r w',
    Sitemap.fetch_and_parse sitemap_url e w = (Ok r, w')
    /\ (r = None <-> fetch_failed (http_get e (w_gets w)) = true)
    /\ w_db w' = w_db w
    /\ w_gets w' = S (w_gets w)
    /\ w_posts w' = w_posts w.
Proof.
  unfold Sitemap.fetch_and_parse. unfold mbind at 1, M_bind at 1.
  destruct (fetch_failed_cases (http_get e (w_gets w)))
    as [Hf|(status & xml & Hget & Hst)].
  - rewrite (fetch_sitemap_failed _ _ _ Hf).
    eexists _, _. split; [reflexivity|]. rewrite Hf.
    repeat split; reflexivity.
  - rewrite (fetch_sitemap_ok _ _ _ _ _ Hget Hst).
    unfold mbind at 1, M_bind at 1.
    match goal with
    | |- context [Sitemap.parse_sitemap xml e ?w0] =>
        destruct (parse_sitemap_returns xml e w0) as [evs ->]
    end.
    eexists _, _. split; [reflexivity|]. rewrite Hget. cbn [fetch_failed].
    rewrite Hst. split; [split; discriminate|].
    repeat split; reflexivity.
Qed.

(** ** Scheduler: quiet cycles, new articles, alerts, the loop *)

Lemma poll_cycle_on_feed cfg e w status xml els :
  http_get e (w_gets w) = GetResponse status xml ->
  is_error_status status = false ->
  etree_fromstring e xml = Some els ->
  exists evs,
    Bot.poll_cycle cfg e w
    = Bot.poll_articles cfg
        (omap (Sitemap.parse_url_element (Sitemap.titlecase_of e)) els) 0 e
        (fetched evs w).
Proof.
  intros Hget Hst Hxml. unfold Bot.poll_cycle, Sitemap.fetch_and_parse.
  unfold mbind at 1, M_bind at 1. unfold mbind at 1, M_bind at 1.
  rewrite (fetch_sitemap_ok _ _ _ _ _ Hget Hst).
  unfold mbind at 1, M_bind at 1.
  match goal with
  | |- context [Sitemap.parse_sitemap xml e ?w0] =>
      destruct (parse_sitemap_returns xml e w0) as [evs ->]
  end.
  rewrite Hxml.
  unfold mret at 1, M_ret at 1. cbv beta iota.
  eexists (_ ++ evs). unfold after_events, fetched.
  cbn [w_db w_ticks w_gets w_posts w_flag_reads w_consecutive_failures w_trace].
  rewrite <- app_assoc. reflexivity.
Qed.

(** A turn of the loop is [poll_cycle], then [after_poll], with the
    [except] block around both. *)
Lemma cycle_after_poll cfg e w :
  Bot.cycle cfg e w
  = match Bot.poll_cycle cfg e (poll_started w) with
    | (Ok result, w1) =>
        match after_poll cfg result e w1 with
        | (Ok a, w2) => (Ok a, w2)
        | (Raise x, w2) =>
            (Ok tt, with_failures (w_consecutive_failures w2 + 1)
                      (after_events [EvLog ERROR "Unexpected error"] w2))
        end
    | (Raise x, w1) =>
        (Ok tt, with_failures (w_consecutive_failures w1 + 1)
                  (after_events [EvLog ERROR "Unexpected error"] w1))
    end.
Proof. rewrite cycle_unfold. reflexivity. Qed.

(** X19. A cycle whose feed shows only articles already on record is quiet:
    it logs that there are no new articles, leaves the ledger as it was,
    posts nothing, and clears the counter of consecutive failures. *)
Theorem cycle_without_news cfg e w status xml els :
  http_get e (w_gets w) = GetResponse status xml ->
  is_error_status status = false ->
  etree_fromstring e xml = Some els ->
  forallb (known_in (w_db w))
    (omap (Sitemap.parse_url_element (Sitemap.titlecase_of e)) els) = true ->
  exists w',
    Bot.cycle cfg e w = (Ok tt, w')
    /\ w_db w' = w_db w
    /\ w_posts w' = w_posts w
    /\ w_consecutive_failures w' = 0
    /\ List.last (w_trace w') (EvLog INFO "") = EvLog INFO "No new articles.".
Proof.
  intros Hget Hst Hxml Hall. rewrite cycle_unfold.
  destruct (poll_cycle_on_feed cfg e (poll_started w) status xml els Hget Hst Hxml)
    as [evs ->].
  rewrite poll_articles_all_known by exact Hall.
  change (0 =? -1) with false. change (0 <? 0) with false. cbv iota.
  unfold mbind, M_bind, set_failures, log, emit.
  eexists. split; [reflexivity|].
  cbn [w_db w_ticks w_gets w_posts w_flag_reads w_consecutive_failures w_trace
       fetched poll_started].
  repeat split. apply last_last.
Qed.

Lemma cycle_without_news_witness :
  exists w',
    Bot.cycle cfg0 env_known_feed world_two_failures = (Ok tt, w')
    /\ w_db w' = db_one_article
    /\ w_posts w' = 0%nat
    /\ w_consecutive_failures w' = 0
    /\ List.last (w_trace w') (EvLog INFO "") = EvLog INFO "No new articles.".
Proof.
  exact (cycle_without_news cfg0 env_known_feed world_two_failures 200 "<urlset/>"
           _ eq_refl eq_refl eq_refl eq_refl).
Defined.

Lemma poll_articles_skips_known cfg seen articles n e w :
  forallb (known_in (w_db w)) seen = true ->
  Bot.poll_articles cfg (seen ++ articles) n e w
  = Bot.poll_articles cfg articles n e w.
Proof.
  induction seen as [|a seen IH]; intros Hall; [reflexivity|].
  cbn [forallb] in Hall. apply andb_prop in Hall as [Ha Hrest].
  cbn [app Bot.poll_articles]. run_poll.
  unfold known_in in Ha. rewrite Ha. exact (IH Hrest).
Qed.







Lemma forallb_false_split {A} (p : A -> bool) (l : list A) :
  forallb p l = false ->
  exists seen a rest,
    l = seen ++ a :: rest /\ forallb p seen = true /\ p a = false.
Proof.
  induction l as [|x l IH]; [discriminate|].
  cbn [forallb]. destruct (p x) eqn:Hx.
  - cbn [andb]. intros Hl. destruct (IH Hl) as (seen & a & rest & -> & Hs & Ha).
    exists (x :: seen), a, rest. cbn [forallb]. rewrite Hx.
    split; [reflexivity|]. split; assumption.
  - intros _. exists [], x, l. split; [reflexivity|]. split; [reflexivity|exact Hx].
Qed.

(** Whatever the loop over the feed does, the articles recorded before are
    still there, in the same order, and nothing is posted. *)
Lemma poll_articles_keeps_records cfg articles n e w :
  exists r w',
    Bot.poll_articles cfg articles n e w = (r, w')
    /\ Db.articles (w_db w) `prefix_of` Db.articles (w_db w')
    /\ w_posts w' = w_posts w.
Proof.
  destruct (forallb (known_in (w_db w)) articles) eqn:Hall.
  - rewrite (poll_articles_all_known cfg articles n e w Hall).
    eexists _, _. split; [reflexivity|]. split; reflexivity.
  - destruct (forallb_false_split _ _ Hall) as (seen & a & rest & -> & Hs & Ha).
    rewrite (poll_articles_skips_known cfg seen) by exact Hs.
    destruct (poll_articles_first_new cfg a rest n e w Ha)
      as (x & w' & -> & Hp & _ & Hcases).
    eexists _, _. split; [reflexivity|]. split; [|exact Hp].
    destruct (fst (Streak.update_streak _ (w_db w))).
    + destruct Hcases as [_ ->]. apply prefix_app_r. reflexivity.
    + destruct Hcases as [_ ->]. reflexivity.
Qed.

Lemma poll_cycle_keeps_records cfg e w :
  exists r w',
    Bot.poll_cycle cfg e w = (r, w')
    /\ Db.articles (w_db w) `prefix_of` Db.articles (w_db w').
Proof.
  destruct (fetch_failed_cases (http_get e (w_gets w)))
    as [Hf|(status & xml & Hget & Hst)].
  - rewrite (poll_cycle_stops_on_failed_fetch cfg e w Hf).
    eexists _, _. split; [reflexivity|]. reflexivity.
  - unfold Bot.poll_cycle, Sitemap.fetch_and_parse.
    unfold mbind at 1, M_bind at 1. unfold mbind at 1, M_bind at 1.
    rewrite (fetch_sitemap_ok _ _ _ _ _ Hget Hst).
    unfold mbind at 1, M_bind at 1.
    match goal with
    | |- context [Sitemap.parse_sitemap xml e ?w0] =>
        destruct (parse_sitemap_returns xml e w0) as [evs ->]
    end.
    unfold mret at 1, M_ret at 1. cbv beta iota.
    match goal with
    | |- context [Bot.poll_articles cfg ?l 0 e ?w0] =>
        destruct (poll_articles_keeps_records cfg l 0 e w0)
          as (r & w' & -> & Hpre & _)
    end.
    eexists _, _. split; [reflexivity|]. exact Hpre.
Qed.

(** What follows [poll_cycle] in a turn of the loop leaves the ledger alone,
    whether it returns or raises. *)
Lemma after_poll_keeps_ledger cfg result e w :
  exists r w', after_poll cfg result e w = (r, w') /\ w_db w' = w_db w.
Proof.
  unfold after_poll. destruct (result =? -1).
  - unfold mbind at 1, M_bind at 1. unfold get_failures at 1.
    unfold mbind at 1, M_bind at 1. unfold set_failures at 1.
    unfold mbind at 1, M_bind at 1. unfold get_failures at 1.
    cbn [w_db w_ticks w_gets w_posts w_flag_reads w_consecutive_failures w_trace].
    unfold mbind at 1, M_bind at 1. unfold lift_result at 1.
    destruct (Str.str_of_int (w_consecutive_failures w + 1)) as [text|x] eqn:Htext;
      [|eexists _, _; split; reflexivity].
    unfold mbind at 1, M_bind at 1. unfold log at 1, emit at 1.
    cbn [w_db w_ticks w_gets w_posts w_flag_reads w_consecutive_failures w_trace].
    destruct (Bot.max_failures <=? w_consecutive_failures w + 1);
      [|eexists _, _; split; reflexivity].
    unfold mbind at 1, M_bind at 1. unfold Webhook.send_error_alert. cbv zeta.
    unfold mbind at 1, M_bind at 1. unfold lift_result at 1.
    rewrite Htext.
    match goal with
    | |- context [Webhook._send_webhook ?u ?b e ?w0] =>
        destruct (send_webhook_bounded e u b w0) as (r & w2 & -> & Hdb & _)
    end.
    destruct r as [[]|x]; unfold set_failures;
      (eexists _, _; split; [reflexivity|exact Hdb]).
  - unfold mbind at 1, M_bind at 1. unfold set_failures at 1.
    destruct (0 <? result); unfold log, emit;
      (eexists _, _; split; reflexivity).
Qed.

(** A turn of the loop returns, and leaves the records in place. *)
Lemma cycle_keeps_records cfg e w :
  exists w',
    Bot.cycle cfg e w = (Ok tt, w')
    /\ Db.articles (w_db w) `prefix_of` Db.articles (w_db w').
Proof.
  rewrite cycle_after_poll.
  destruct (poll_cycle_keeps_records cfg e (poll_started w))
    as (r & w1 & -> & Hpre).
  change (w_db (poll_started w)) with (w_db w) in Hpre.
  destruct r as [result|x]; [|eexists; split; [reflexivity|exact Hpre]].
  destruct (after_poll_keeps_ledger cfg result e w1) as (r & w2 & -> & Hdb).
  destruct r as [[]|x]; (eexists; split; [reflexivity|]);
    cbn [with_failures after_events w_db]; rewrite Hdb; exact Hpre.
Qed.

Lemma interruptible_sleep_returns seconds e : forall w,
  exists w',
    Bot.interruptible_sleep seconds e w = (Ok tt, w') /\ w_db w' = w_db w.
Proof.
  induction seconds as [|s IH]; intros w;
    [eexists; split; reflexivity|].
  cbn [Bot.interruptible_sleep].
  unfold mbind at 1, M_bind at 1, read_shutdown_flag at 1.
  destruct (shutdown_flag e (w_flag_reads w)); [eexists; split; reflexivity|].
  rewrite (sleep_accepts 1) by (unfold SLEEP_MAX; lia).
  unfold mbind at 1, M_bind at 1, emit at 1.
  match goal with
  | |- context [Bot.interruptible_sleep s e ?w0] =>
      destruct (IH w0) as (w' & -> & Hdb)
  end.
  eexists. split; [reflexivity|exact Hdb].
Qed.

(** X22. No exception escapes the main loop, and the loop never loses a
    record: whatever the feed, the webhook and the clock answer, and for
    any number of turns, [main_loop] returns normally, and the articles on
    record before are still on record after, in the same order and ahead
    of any new one. *)
Theorem main_loop_never_raises turns cfg e : forall w,
  exists w',
    Bot.main_loop turns cfg e w = (Ok tt, w')
    /\ Db.articles (w_db w) `prefix_of` Db.articles (w_db w').
Proof.
  induction turns as [|t IH]; intros w;
    [eexists; split; reflexivity|].
  cbn [Bot.main_loop].
  unfold mbind at 1, M_bind at 1, read_shutdown_flag at 1.
  destruct (shutdown_flag e (w_flag_reads w));
    [eexists; split; reflexivity|].
  unfold mbind at 1, M_bind at 1.
  match goal with
  | |- context [Bot.cycle cfg e ?w0] =>
      destruct (cycle_keeps_records cfg e w0) as (w1 & -> & Hpre1)
  end.
  unfold mbind at 1, M_bind at 1.
  destruct (interruptible_sleep_returns (Z.to_nat (Bot.poll_interval cfg)) e w1)
    as (w2 & -> & Hdb2).
  destruct (IH w2) as (w3 & -> & Hpre3).
  eexists. split; [reflexivity|].
  rewrite Hdb2 in Hpre3. cbn [w_db] in Hpre1.
  etransitivity; [exact Hpre1|exact Hpre3].
Qed.

(** X23. The sleep between two polls ends at the first reading of the
    shutdown flag that finds it set: with the flag clear at the first [k]
    readings and set at the next, the bot sleeps [k] one-second steps and
    reads the flag [k + 1] times; with the flag clear throughout it sleeps
    all [seconds] steps. It never sleeps more than [seconds] steps. *)
Theorem interruptible_sleep_stops_at_flag seconds k e w :
  (k <= seconds)%nat ->
  (forall i, (i < k)%nat -> shutdown_flag e (w_flag_reads w + i) = false) ->
  ((k < seconds)%nat -> shutdown_flag e (w_flag_reads w + k) = true) ->
  Bot.interruptible_sleep seconds e w
  = (Ok tt,
     mkWorld (w_db w) (w_ticks w) (w_gets w) (w_posts w)
       (w_flag_reads w + (if (k <? seconds)%nat then S k else k))
       (w_consecutive_failures w) (w_trace w ++ repeat (EvSleep 1) k)).
Proof.
  revert k w. induction seconds as [|s IH]; intros k w Hk Hquiet Hstop.
  - assert (k = 0)%nat as -> by lia. cbn.
    rewrite Nat.add_0_r, app_nil_r. destruct w; reflexivity.
  - cbn [Bot.interruptible_sleep].
    unfold mbind at 1, M_bind at 1, read_shutdown_flag at 1.
    destruct k as [|k].
    + rewrite Nat.add_0_r in Hstop. rewrite Hstop by lia.
      cbn. rewrite app_nil_r, Nat.add_1_r. reflexivity.
    + pose proof (Hquiet 0%nat ltac:(lia)) as H0.
      rewrite Nat.add_0_r in H0. rewrite H0.
      rewrite (sleep_accepts 1) by (unfold SLEEP_MAX; lia).
      unfold mbind at 1, M_bind at 1, emit at 1.
      cbn [w_db w_ticks w_gets w_posts w_flag_reads w_consecutive_failures
           w_trace].
      rewrite (IH k); cbn [w_db w_ticks w_gets w_posts w_flag_reads
                           w_consecutive_failures w_trace].
      * change (S k <? S s)%nat with (k <? s)%nat.
        rewrite <- app_assoc. cbn [repeat app].
        destruct (k <? s)%nat; rewrite <- ?plus_n_Sm; cbn [Nat.add];
          reflexivity.
      * lia.
      * intros i Hi. replace (S (w_flag_reads w) + i)%nat
          with (w_flag_reads w + S i)%nat by lia. apply Hquiet. lia.
      * intros Hlt. replace (S (w_flag_reads w) + k)%nat
          with (w_flag_reads w + S k)%nat by lia. apply Hstop. lia.
Qed.

Lemma interruptible_sleep_stops_at_flag_witness :
  Bot.interruptible_sleep 60 env_stop_at_third_read world0
  = (Ok tt, mkWorld Db.init_db 0 0 0 3 0 [EvSleep 1; EvSleep 1]).
Proof.
  rewrite (interruptible_sleep_stops_at_flag 60 2 env_stop_at_third_read world0).
  - reflexivity.
  - lia.
  - intros [|[|i]] Hi; [reflexivity|reflexivity|lia].
  - reflexivity.
Defined.
